(** * HcalPhase1Reconstructor: charge correction, batch building and
    result construction

    A shallow embedding of [TensorRT/plugins/HcalPhase1Reconstructor.cc].

    - [int] and [unsigned int] values are integers of [Z] with the 32-bit
      wrap-around written out ([wrap_int], [wrap_unsigned]); an [int]
      addition that overflows, which C++ leaves undefined, wraps as the
      machine does, and the statements that depend on it assume
      [int_range];
    - [double] is the binary64 type [float] of the Standard Library; a C++
      [float] is a [float] that holds a binary32 value, obtained with the
      conversions [double_to_float] and [int_to_float];
    - a [throw] and an access outside a container are the two ways a call
      can fail to return: [Throw] and [Undefined] of [outcome];
    - the members written by the producer ([tmp] and the input buffer the
      base class hands to [acquire]) are threaded through the state monad
      [M]. *)

From Stdlib Require Import ZArith Bool Floats Lia.
From stdpp Require Import base list.

Local Open Scope Z_scope.

(** ** Machine numbers *)

Definition wrap_unsigned (z : Z) : Z := z mod 2 ^ 32.

Definition wrap_int (z : Z) : Z := (z + 2 ^ 31) mod 2 ^ 32 - 2 ^ 31.

Definition int_range (z : Z) : Prop := - 2 ^ 31 <= z < 2 ^ 31.

(** Rounding of a [double] to the nearest binary32 value: the conversion
    [(float)x]. *)
Definition double_to_float (x : float) : float :=
  match Prim2SF x with
  | S754_finite s m e =>
      SF2Prim (binary_normalize 24 128 (if s then Z.neg m else Z.pos m) e s)
  | _ => x
  end.

(** Conversion of an integer to the nearest binary32 value. *)
Definition int_to_float (z : Z) : float :=
  SF2Prim (binary_normalize 24 128 z 0 false).

(** ** Data of the detector and of the conditions database *)

Inductive HcalSubdetector :=
| HcalEmpty | HcalBarrel | HcalEndcap | HcalOuter
| HcalForward | HcalTriggerTower | HcalOther.

(** What [processData] reads of a cell identifier. *)
Record HcalDetId := mkHcalDetId {
  subdet : HcalSubdetector;
  ieta : Z;
  iphi : Z;
  det_depth : Z
}.

(** One time slice of a frame: [adc()] and [capid()]. *)
Record Sample := mkSample { adc : Z; capid : Z }.

(** A QIE11 frame: [frame.id()] and the samples read by [frame[ts]]. *)
Record QIE11DataFrame := mkQIE11DataFrame {
  id : HcalDetId;
  samples : list Sample
}.

(** The decoded charges of a frame; [cs.size()] is the length, and [cs[ts]]
    is read inside it only. *)
Abbreviation CaloSamples := (list float).

Record HcalCalibrations := mkHcalCalibrations { pedestal : Z -> float }.

Record HcalSiPMParameter := mkHcalSiPMParameter {
  getFCByPE : float;
  getType : Z
}.

Record HcalSiPMnonlinearity := mkHcalSiPMnonlinearity {
  getRecoCorrectionFactor : float -> float
}.

(** The conditions service, as far as this file calls it. [adc2fC] stands
    for the coder built from [getHcalCoder] and [getHcalShape]. *)
Record HcalDbService := mkHcalDbService {
  getHcalCalibrations : HcalDetId -> HcalCalibrations;
  getHcalSiPMParameter : HcalDetId -> HcalSiPMParameter;
  getNonLinearities : Z -> HcalSiPMnonlinearity;
  adc2fC : QIE11DataFrame -> CaloSamples
}.

(** [HBHERecHit(id, energy, time, timeFalling)]. *)
Record HBHERecHit := mkHBHERecHit {
  rh_id : HcalDetId;
  rh_energy : float;
  rh_time : float;
  rh_timeFalling : float
}.

(** ** Ways of not returning *)

Inductive exception :=
| HBHEPhase1BadDB (cell : HcalDetId).

Inductive undefined :=
| OutOfBoundsRead (i : Z)
| OutOfBoundsWrite (i : Z).

Inductive outcome (A : Type) :=
| Ok (a : A)
| Throw (e : exception)
| Undefined (u : undefined).

Arguments Ok {A} a.
Arguments Throw {A} e.
Arguments Undefined {A} u.

#[export] Instance outcome_ret : MRet outcome := fun A a => Ok a.

#[export] Instance outcome_bind : MBind outcome := fun A B k c =>
  match c with
  | Ok a => k a
  | Throw e => Throw e
  | Undefined u => Undefined u
  end.

(** [v[i]] on a sequence container: defined inside the container only. *)
Definition at_index {A} (v : list A) (i : Z) : outcome A :=
  if 0 <=? i then
    match v !! Z.to_nat i with
    | Some a => Ok a
    | None => Undefined (OutOfBoundsRead i)
    end
  else Undefined (OutOfBoundsRead i).

(** The values [lo, lo+1, ..., hi-1] taken by the variable of
    [for (ts = lo; ts < hi; ++ts)]. *)
Definition range (lo hi : Z) : list Z :=
  (fun k => lo + Z.of_nat k) <$> seq 0 (Z.to_nat (hi - lo)).

(** A loop body run for each value of a list, with an accumulator. *)
Fixpoint ofold {A S} (body : S -> A -> outcome S) (l : list A) (s : S)
  : outcome S :=
  match l with
  | [] => Ok s
  | a :: l' => s' ← body s a; ofold body l' s'
  end.

(** ** RawChargeFromSample *)

(** The primary template: used for every frame type but the QIE11 one. *)
Module Primary.

Record RawChargeFromSample : Set := mkRawChargeFromSample { }.

Definition construct {DFrame : Type} (sipmQTSShift sipmQNTStoSum : Z)
    (cond : HcalDbService) (cell : HcalDetId) (cs : CaloSamples) (soi : Z)
    (frame : DFrame) (maxTS : Z) : outcome RawChargeFromSample :=
  Ok mkRawChargeFromSample.

Definition getRawCharge (self : RawChargeFromSample)
    (decodedCharge pedestal : float) : float :=
  decodedCharge.

End Primary.

(** The specialisation for [QIE11DataFrame]. *)
Module QIE11.

Record RawChargeFromSample := mkRawChargeFromSample {
  siPMParameter_ : HcalSiPMParameter;
  fcByPE_ : float;
  corr_ : HcalSiPMnonlinearity;
  factor_ : float
}.

Definition firstTS (soi sipmQTSShift : Z) : Z :=
  Z.max (wrap_int (soi + sipmQTSShift)) 0.

Definition lastTS (soi sipmQTSShift sipmQNTStoSum maxTS : Z) : Z :=
  Z.min (wrap_int (firstTS soi sipmQTSShift + sipmQNTStoSum)) maxTS.

(** One turn of the summing loop. *)
Definition sum_step (calib : HcalCalibrations) (cs : CaloSamples)
    (frame : QIE11DataFrame) (sipmQ : float) (ts : Z) : outcome float :=
  s ← at_index (samples frame) ts;
  let ped := pedestal calib (capid s) in
  c ← at_index cs ts;
  Ok (sipmQ + (c - ped))%float.

Definition sipmQ_loop (calib : HcalCalibrations) (cs : CaloSamples)
    (frame : QIE11DataFrame) (first last : Z) : outcome float :=
  ofold (sum_step calib cs frame) (range first last) 0%float.

Definition construct (sipmQTSShift sipmQNTStoSum : Z)
    (cond : HcalDbService) (cell : HcalDetId) (cs : CaloSamples) (soi : Z)
    (frame : QIE11DataFrame) (maxTS : Z) : outcome RawChargeFromSample :=
  let siPMParameter := getHcalSiPMParameter cond cell in
  let fcByPE := getFCByPE siPMParameter in
  let corr := getNonLinearities cond (getType siPMParameter) in
  if (fcByPE <=? 0)%float then Throw (HBHEPhase1BadDB cell)
  else
    let calib := getHcalCalibrations cond cell in
    let first := firstTS soi sipmQTSShift in
    let last := lastTS soi sipmQTSShift sipmQNTStoSum maxTS in
    sipmQ ← sipmQ_loop calib cs frame first last;
    let effectivePixelsFired := (sipmQ / fcByPE)%float in
    Ok {| siPMParameter_ := siPMParameter;
          fcByPE_ := fcByPE;
          corr_ := corr;
          factor_ := getRecoCorrectionFactor corr effectivePixelsFired |}.

Definition getRawCharge (self : RawChargeFromSample)
    (decodedCharge pedestal : float) : float :=
  ((decodedCharge - pedestal) * factor_ self + pedestal)%float.

End QIE11.

(** ** The producer *)

(** The batch handed to the inference client and the batch it returns. *)
Abbreviation Input := (list float).
Abbreviation Output := (list float).

(** The members the code only reads. [depth] is declared and never
    assigned; [client_ninput] and [client_batchSize] are what
    [client_.ninput()] and [client_.batchSize()] return. *)
Record HcalPhase1Reconstructor := mkHcalPhase1Reconstructor {
  sipmQTSShift_ : Z;
  sipmQNTStoSum_ : Z;
  depth : float;
  client_ninput : Z;
  client_batchSize : Z
}.

(** What the code writes: the vector [tmp] points to and the buffer
    [iInput] refers to. *)
Record state := mkState {
  tmp : list HBHERecHit;
  iInput : Input
}.

Record Event := mkEvent { digis : list QIE11DataFrame }.

Record EventSetup := mkEventSetup { conditions : HcalDbService }.

Definition M (A : Type) : Type := state -> state * outcome A.

#[export] Instance M_ret : MRet M := fun A a s => (s, Ok a).

#[export] Instance M_bind : MBind M := fun A B k c s =>
  match c s with
  | (s', Ok a) => k a s'
  | (s', Throw e) => (s', Throw e)
  | (s', Undefined u) => (s', Undefined u)
  end.

Definition lift {A} (c : outcome A) : M A := fun s => (s, c).

(** [iInput[i] = v]: [operator[]] of a vector checks nothing. *)
Definition write (i : Z) (v : float) : M unit := fun s =>
  if (0 <=? i) && (i <? Z.of_nat (length (iInput s))) then
    ({| tmp := tmp s; iInput := <[Z.to_nat i := v]> (iInput s) |}, Ok ())
  else (s, Undefined (OutOfBoundsWrite i)).

(** [iInput = Input(n, 0.f)]. *)
Definition assign_input (n : Z) : M unit := fun s =>
  ({| tmp := tmp s; iInput := replicate (Z.to_nat n) 0%float |}, Ok ()).

(** [tmp->clear()]. *)
Definition clear_tmp : M unit := fun s =>
  ({| tmp := []; iInput := iInput s |}, Ok ()).

(** [tmp->push_back(rh)]. *)
Definition push_back (rh : HBHERecHit) : M unit := fun s =>
  ({| tmp := tmp s ++ [rh]; iInput := iInput s |}, Ok ()).

(** A loop body run for each value of a list. *)
Fixpoint mfor {A} (body : A -> M unit) (l : list A) : M unit :=
  match l with
  | [] => mret ()
  | a :: l' => body a ;; mfor body l'
  end.

(** The test that guards [continue]. *)
Definition admitted (cell : HcalDetId) : bool :=
  match subdet cell with
  | HcalBarrel | HcalEndcap | HcalOuter => true
  | _ => false
  end.

Section ProcessData.

(** [HBHEChannelInfo::MAXSAMPLES], declared outside this file. *)
Variable MAXSAMPLES : Z.

Variable self : HcalPhase1Reconstructor.

(** The body of the loop over [inputTS]. *)
Definition charge_step (calib : HcalCalibrations) (cs : CaloSamples)
    (frame : QIE11DataFrame) (rcfs : QIE11.RawChargeFromSample)
    (ib ninput inputTS : Z) : M unit :=
  s ← lift (at_index (samples frame) inputTS);
  let capid := capid s in
  c ← lift (at_index cs inputTS);
  let rawCharge := QIE11.getRawCharge rcfs c (pedestal calib capid) in
  write (wrap_unsigned (ib * ninput + inputTS + 2))
        (double_to_float rawCharge).

(** The body of the loop over [d]. *)
Definition depth_step (ib ninput d : Z) : M unit :=
  if (depth self =? int_to_float d)%float
  then write (wrap_unsigned (ib * ninput + d + 10)) 1%float
  else write (wrap_unsigned (ib * ninput + d + 10)) 0%float.

(** The body of the loop over the collection, for the frame at position
    [pos]. The [ib] of the body is the one declared inside the loop; the
    [ib] declared before the loop is hidden by it and never read. *)
Definition process_frame (cond : HcalDbService) (ninput : Z) (pos : Z)
    (frame : QIE11DataFrame) : M unit :=
  let ib := wrap_unsigned pos in
  let cell := id frame in
  if negb (admitted cell) then mret ()
  else
    let calib := getHcalCalibrations cond cell in
    let cs := adc2fC cond frame in
    let nRead := Z.of_nat (length cs) in
    let maxTS := Z.min nRead MAXSAMPLES in
    let soi := 3 in
    let nCycles := 8 in
    rcfs ← lift (QIE11.construct (sipmQTSShift_ self) (sipmQNTStoSum_ self)
                   cond cell cs soi frame maxTS);
    mfor (charge_step calib cs frame rcfs ib ninput) (range 0 nCycles);;
    write (wrap_unsigned (ib + 0)) (int_to_float (ieta cell));;
    write (wrap_unsigned (ib + 1)) (int_to_float (iphi cell));;
    mfor (depth_step ib ninput) (range 1 5);;
    let rh := mkHBHERecHit cell 0 0 0 in
    push_back rh.

(** The loop over the collection, from the frame at position [pos] on.
    The line printed on [std::cout] before the loop is left out. *)
Fixpoint processData_from (cond : HcalDbService) (ninput : Z) (pos : Z)
    (coll : list QIE11DataFrame) : M unit :=
  match coll with
  | [] => mret ()
  | frame :: rest =>
      process_frame cond ninput pos frame;;
      processData_from cond ninput (pos + 1) rest
  end.

Definition processData (coll : list QIE11DataFrame) (cond : HcalDbService)
    (ninput : Z) : M unit :=
  processData_from cond ninput 0 coll.

Definition acquire (iEvent : Event) (iSetup : EventSetup) : M unit :=
  let ninput := client_ninput self in
  let batchSize := client_batchSize self in
  assign_input (wrap_unsigned (ninput * batchSize));;
  clear_tmp;;
  processData (digis iEvent) (conditions iSetup) ninput.

(** One turn of the loop of [produce]: the collection being filled and the
    counter [ib]. *)
Definition produce_step (acc : list HBHERecHit * Z) (it : HBHERecHit)
  : list HBHERecHit * Z :=
  let rhout := mkHBHERecHit (rh_id it) (double_to_float 0.5) 0 0 in
  (acc.1 ++ [rhout], wrap_unsigned (acc.2 + 1)).

(** [produce] returns the collection [out] it hands to [iEvent.put]. It
    takes [iOutput] and never reads it. *)
Definition produce (s : state) (iOutput : Output) : list HBHERecHit :=
  (foldl produce_step ([], 0) (tmp s)).1.

(** Modelled from the spec: the driver of a cycle, which is the base class
    [SonicEDProducer] and the client, both outside this file. One cycle is
    one acquisition, one inference round trip and one emission of results
    (section 5); an error raised while the batch is built aborts the cycle
    (section 7), so [produce] runs only after [acquire] has returned. *)
Definition cycle (predict : Input -> Output) (iEvent : Event)
    (iSetup : EventSetup) (s : state) : state * outcome (list HBHERecHit) :=
  match acquire iEvent iSetup s with
  | (s', Ok _) => (s', Ok (produce s' (predict (iInput s'))))
  | (s', Throw e) => (s', Throw e)
  | (s', Undefined u) => (s', Undefined u)
  end.

End ProcessData.

(** ** The correction in the words of the specification *)

(** The signal of one time slice: its decoded charge minus the pedestal of
    its capacitor. *)
Definition signal (calib : HcalCalibrations) (slice : Sample * float)
  : float :=
  (slice.2 - pedestal calib (capid slice.1))%float.

(** The time slices [first, last) of a frame with their decoded charges. *)
Definition integration_window (frame : QIE11DataFrame) (cs : CaloSamples)
    (first last : Z) : list (Sample * float) :=
  take (Z.to_nat (last - first))
       (drop (Z.to_nat first) (zip (samples frame) cs)).

(** The sum of the signals over the window, divided by the fC per
    photoelectron factor. *)
Definition spec_effectivePixelsFired (calib : HcalCalibrations)
    (fcByPE : float) (frame : QIE11DataFrame) (cs : CaloSamples)
    (first last : Z) : float :=
  (foldl (fun q slice => q + signal calib slice) 0
         (integration_window frame cs first last) / fcByPE)%float.

(** ** Conditions on a cycle used in the statements *)

(** An admitted frame that [process_frame] can read: the conversion factor
    passes the test of the constructor, the frame holds the eight time
    slices the batch loop reads, and the coder decodes one charge per
    sample. *)
Definition readable_frame (cond : HcalDbService) (frame : QIE11DataFrame)
  : Prop :=
  admitted (id frame) = true ->
  (getFCByPE (getHcalSiPMParameter cond (id frame)) <=? 0)%float = false /\
  (8 <= length (samples frame))%nat /\
  length (adc2fC cond frame) = length (samples frame).

(** A computation that, run on a buffer of [L] cells, returns and leaves a
    buffer of [L] cells. *)
Definition succeeds_in {A} (L : Z) (c : M A) : Prop :=
  forall s : state,
    Z.of_nat (length (iInput s)) = L ->
    exists (s' : state) (a : A),
      c s = (s', Ok a) /\ Z.of_nat (length (iInput s')) = L.

(** A computation that leaves [tmp] as it is, however it ends. *)
Definition keeps_tmp {A} (c : M A) : Prop :=
  forall (s s' : state) (o : outcome A), c s = (s', o) -> tmp s' = tmp s.

(** A computation that, when it returns, has appended [l] to [tmp]. *)
Definition appends {A} (c : M A) (l : list HBHERecHit) : Prop :=
  forall (s s' : state) (a : A), c s = (s', Ok a) -> tmp s' = tmp s ++ l.

(** The hit [process_frame] records for a frame, and the hit [produce]
    emits for a recorded hit. *)
Definition recorded_hit (frame : QIE11DataFrame) : HBHERecHit :=
  mkHBHERecHit (id frame) 0 0 0.

Definition emitted_hit (cell : HcalDetId) : HBHERecHit :=
  mkHBHERecHit cell 0.5 0 0.

(** The frames of a collection that pass the filter, in order. *)
Definition admitted_frames (coll : list QIE11DataFrame)
  : list QIE11DataFrame :=
  filter (fun frame => admitted (id frame) = true) coll.

(** C4 in the words of the specification: the scalar of record [i] is
    taken from row [i] of the batch the inference engine returned. *)
Definition scalars_from_output (records : list HBHERecHit)
    (iOutput : Output) : Prop :=
  forall (i : nat) (r : HBHERecHit),
    records !! i = Some r -> iOutput !! i = Some (rh_energy r).

(** ** A small cycle to run the definitions on *)

Definition example_samples : list Sample :=
  (fun a => mkSample a (a mod 4)) <$> [1; 2; 3; 4; 5; 6; 7; 8].

Definition example_frame (sd : HcalSubdetector) (eta phi dep : Z)
  : QIE11DataFrame :=
  mkQIE11DataFrame (mkHcalDetId sd eta phi dep) example_samples.

(** Pedestal [capid], charge [10 * adc], correction [1 + x], and a
    conversion factor of 2, or of 0 for the cells of the ring [bad]. *)
Definition example_cond (bad : Z) : HcalDbService :=
  mkHcalDbService
    (fun _ => mkHcalCalibrations int_to_float)
    (fun cell => mkHcalSiPMParameter (if ieta cell =? bad then 0 else 2) 1)
    (fun _ => mkHcalSiPMnonlinearity (fun x => 1 + x)%float)
    (fun frame => (fun s => int_to_float (10 * adc s)) <$> samples frame).

Definition example_setup : EventSetup := mkEventSetup (example_cond 0).

(** A producer with a window of three time slices from the sample of
    interest, rows of fifteen features and [batchSize] rows. *)
Definition example_self (batchSize : Z) : HcalPhase1Reconstructor :=
  mkHcalPhase1Reconstructor 0 3 0 15 batchSize.

(** The same producer with the member [depth] holding [d]. *)
Definition example_self_depth (d : float) (batchSize : Z)
  : HcalPhase1Reconstructor :=
  mkHcalPhase1Reconstructor 0 3 d 15 batchSize.

Definition barrel_frame : QIE11DataFrame := example_frame HcalBarrel 5 7 2.
Definition endcap_frame : QIE11DataFrame := example_frame HcalEndcap (-20) 9 3.
Definition forward_frame : QIE11DataFrame := example_frame HcalForward 30 7 2.

Definition two_admitted : Event := mkEvent [barrel_frame; endcap_frame].
Definition rejected_then_admitted : Event :=
  mkEvent [forward_frame; endcap_frame].

Definition empty_state : state := mkState [] [].

(** ** The constructor of the producer *)

(** The parameters the constructor reads with [getParameter<unsigned>]. *)
Record ParameterSet := mkParameterSet {
  par_sipmQTSShift : Z;
  par_sipmQNTStoSum : Z;
  par_topN : Z
}.

(** The members after the constructor: an [unsigned] parameter stored in
    an [int] member keeps its 32 bits; [depth] is not initialised and
    holds whatever [unset] is; [topN_] is stored and never read. The
    client and its sizes come from the base class. *)
Definition make_reconstructor (cfg : ParameterSet) (unset : float)
    (ninput batchSize : Z) : HcalPhase1Reconstructor :=
  {| sipmQTSShift_ := wrap_int (par_sipmQTSShift cfg);
     sipmQNTStoSum_ := wrap_int (par_sipmQNTStoSum cfg);
     depth := unset;
     client_ninput := ninput;
     client_batchSize := batchSize |}.

(** ** Buffers as sequences of writes *)

(** The buffer after the writes [ws], made in order. *)
Fixpoint apply_writes (ws : list (Z * float)) (buf : list float)
  : list float :=
  match ws with
  | [] => buf
  | w :: ws' => apply_writes ws' (<[Z.to_nat w.1 := w.2]> buf)
  end.

(** The value of the last write of [ws] at index [j], if there is one. *)
Fixpoint last_write (j : Z) (ws : list (Z * float)) : option float :=
  match ws with
  | [] => None
  | w :: ws' =>
      match last_write j ws' with
      | Some v => Some v
      | None => if w.1 =? j then Some w.2 else None
      end
  end.

(** The value the batch loop writes for time slice [ts]. *)
Definition charge_value (calib : HcalCalibrations) (cs : CaloSamples)
    (frame : QIE11DataFrame) (rcfs : QIE11.RawChargeFromSample) (ts : Z)
  : float :=
  match samples frame !! Z.to_nat ts, cs !! Z.to_nat ts with
  | Some s, Some c =>
      double_to_float
        (QIE11.getRawCharge rcfs c (pedestal calib (capid s)))
  | _, _ => 0%float
  end.

(** The value the depth loop writes for [d]. *)
Definition depth_value (self : HcalPhase1Reconstructor) (d : Z) : float :=
  if (depth self =? int_to_float d)%float then 1%float else 0%float.

(** The writes of [process_frame] for an admitted frame, in order. *)
Definition frame_writes (self : HcalPhase1Reconstructor)
    (calib : HcalCalibrations) (cs : CaloSamples) (frame : QIE11DataFrame)
    (rcfs : QIE11.RawChargeFromSample) (pos ninput : Z)
  : list (Z * float) :=
  ((fun ts => (pos * ninput + ts + 2, charge_value calib cs frame rcfs ts))
     <$> range 0 8)
  ++ [(pos + 0, int_to_float (ieta (id frame)));
      (pos + 1, int_to_float (iphi (id frame)))]
  ++ ((fun d => (pos * ninput + d + 10, depth_value self d)) <$> range 1 5).

(** A computation that leaves the size of the buffer as it is, however it
    ends. *)
Definition keeps_size {A} (c : M A) : Prop :=
  forall (s s' : state) (o : outcome A),
    c s = (s', o) -> length (iInput s') = length (iInput s).



(** A float that is a zero or a finite number. *)
Definition finite_float (x : float) : bool :=
  match Prim2SF x with
  | S754_zero _ | S754_finite _ _ _ => true
  | _ => false
  end.

(** A float that is not the negative zero. *)
Definition not_negative_zero (x : float) : bool :=
  match Prim2SF x with
  | S754_zero true => false
  | _ => true
  end.

(** * Properties *)

(** ** Machine numbers and loops *)

Lemma wrap_unsigned_small (z : Z) : 0 <= z < 2 ^ 32 -> wrap_unsigned z = z.
Proof. intros H. unfold wrap_unsigned. apply Z.mod_small, H. Qed.

Lemma wrap_int_small (z : Z) : int_range z -> wrap_int z = z.
Proof.
  unfold int_range, wrap_int. intros H.
  rewrite Z.mod_small; lia.
Qed.

Lemma elem_of_range (lo hi x : Z) : x ∈ range lo hi <-> lo <= x < hi.
Proof.
  unfold range. rewrite list_elem_of_fmap. split.
  - intros (k & -> & Hk). apply elem_of_seq in Hk. lia.
  - intros H. exists (Z.to_nat (x - lo)). split; [lia|].
    apply elem_of_seq. lia.
Qed.

Lemma range_empty (lo hi : Z) : hi <= lo -> range lo hi = [].
Proof.
  intros H. unfold range.
  replace (Z.to_nat (hi - lo)) with 0%nat by lia. reflexivity.
Qed.

Lemma range_cons (lo hi : Z) : lo < hi -> range lo hi = lo :: range (lo + 1) hi.
Proof.
  intros H. unfold range.
  replace (Z.to_nat (hi - lo)) with (S (Z.to_nat (hi - (lo + 1)))) by lia.
  cbn [seq fmap list_fmap]. f_equal; [lia|].
  rewrite <- fmap_S_seq, <- list_fmap_compose.
  apply list_fmap_ext. intros _ k _. simpl. lia.
Qed.

Lemma at_index_Ok {A} (v : list A) (i : Z) :
  0 <= i < Z.of_nat (length v) ->
  exists a, at_index v i = Ok a /\ v !! Z.to_nat i = Some a.
Proof.
  intros H. unfold at_index.
  destruct (Z.leb_spec 0 i); [|lia].
  destruct (lookup_lt_is_Some_2 v (Z.to_nat i)) as [a Ha]; [lia|].
  exists a. rewrite Ha. auto.
Qed.

Lemma double_to_float_half : double_to_float 0.5 = 0.5%float.
Proof. vm_compute. reflexivity. Qed.

(** ** Comparisons with zero *)

Lemma div_zero_positive (x : float) :
  (0 <? x)%float = true -> (0 / x)%float = 0%float.
Proof.
  intros H. rewrite ltb_spec in H.
  apply Prim2SF_inj. rewrite div_spec.
  change (Prim2SF 0) with (S754_zero false) in *.
  destruct (Prim2SF x) as [s|[]| |[] m e];
    simpl in *; try discriminate; reflexivity.
Qed.

Lemma positive_not_leb (x : float) :
  (0 <? x)%float = true -> (x <=? 0)%float = false.
Proof.
  rewrite ltb_spec, leb_spec.
  change (Prim2SF 0) with (S754_zero false).
  destruct (Prim2SF x) as [s|[]| |[] m e]; cbv; congruence.
Qed.

(** ** The corrector *)

Lemma sum_step_Ok (calib : HcalCalibrations) (cs : CaloSamples)
    (frame : QIE11DataFrame) (q : float) (ts : Z) :
  0 <= ts < Z.of_nat (length (samples frame)) ->
  ts < Z.of_nat (length cs) ->
  exists s c,
    QIE11.sum_step calib cs frame q ts = Ok (q + signal calib (s, c))%float /\
    samples frame !! Z.to_nat ts = Some s /\ cs !! Z.to_nat ts = Some c.
Proof.
  intros Hs Hc.
  destruct (at_index_Ok (samples frame) ts) as (s & Es & Ls); [lia|].
  destruct (at_index_Ok cs ts) as (c & Ec & Lc); [lia|].
  exists s, c. unfold QIE11.sum_step. rewrite Es. cbn. rewrite Ec. auto.
Qed.

Lemma sipmQ_loop_sum (calib : HcalCalibrations) (cs : CaloSamples)
    (frame : QIE11DataFrame) (n : nat) :
  forall (first last : Z) (q0 : float),
    Z.to_nat (last - first) = n ->
    0 <= first ->
    last <= Z.of_nat (length (samples frame)) ->
    last <= Z.of_nat (length cs) ->
    ofold (QIE11.sum_step calib cs frame) (range first last) q0 =
    Ok (foldl (fun q slice => q + signal calib slice)%float q0
          (integration_window frame cs first last)).
Proof.
  induction n as [|n IH]; intros first last q0 Hn H0 Hs Hc.
  - rewrite range_empty by lia. unfold integration_window.
    rewrite Hn. reflexivity.
  - rewrite range_cons by lia. cbn [ofold].
    destruct (sum_step_Ok calib cs frame q0 first) as (s & c & E & Ls & Lc);
      [lia..|].
    rewrite E. cbn [mbind outcome_bind].
    rewrite (IH (first + 1) last) by lia.
    unfold integration_window. rewrite Hn.
    assert (Hz : zip (samples frame) cs !! Z.to_nat first = Some (s, c)).
    { apply lookup_zip_with_Some. eauto. }
    rewrite (drop_S _ _ _ Hz). cbn [take foldl].
    replace (Z.to_nat (last - (first + 1))) with n by lia.
    replace (Z.to_nat (first + 1)) with (S (Z.to_nat first)) by lia.
    reflexivity.
Qed.

Lemma firstTS_nonneg (soi shift : Z) : 0 <= QIE11.firstTS soi shift.
Proof. unfold QIE11.firstTS. lia. Qed.

Lemma lastTS_le (soi shift nsum maxTS : Z) :
  QIE11.lastTS soi shift nsum maxTS <= maxTS.
Proof. unfold QIE11.lastTS. lia. Qed.

(** Inside a frame with [maxTS] usable samples the constructor returns,
    unless the conversion factor is rejected. *)
Lemma construct_Ok (shift nsum : Z) (cond : HcalDbService) (cell : HcalDetId)
    (cs : CaloSamples) (soi : Z) (frame : QIE11DataFrame) (maxTS : Z) :
  (getFCByPE (getHcalSiPMParameter cond cell) <=? 0)%float = false ->
  maxTS <= Z.of_nat (length (samples frame)) ->
  maxTS <= Z.of_nat (length cs) ->
  QIE11.construct shift nsum cond cell cs soi frame maxTS =
  Ok {| QIE11.siPMParameter_ := getHcalSiPMParameter cond cell;
        QIE11.fcByPE_ := getFCByPE (getHcalSiPMParameter cond cell);
        QIE11.corr_ :=
          getNonLinearities cond (getType (getHcalSiPMParameter cond cell));
        QIE11.factor_ :=
          getRecoCorrectionFactor
            (getNonLinearities cond (getType (getHcalSiPMParameter cond cell)))
            (spec_effectivePixelsFired (getHcalCalibrations cond cell)
               (getFCByPE (getHcalSiPMParameter cond cell)) frame cs
               (QIE11.firstTS soi shift)
               (QIE11.lastTS soi shift nsum maxTS)) |}.
Proof.
  intros Hfc Hs Hc. unfold QIE11.construct. rewrite Hfc.
  unfold QIE11.sipmQ_loop.
  pose proof (firstTS_nonneg soi shift).
  pose proof (lastTS_le soi shift nsum maxTS).
  rewrite (sipmQ_loop_sum _ _ _ _ _ _ _ eq_refl) by lia.
  reflexivity.
Qed.

Lemma sum_step_no_throw (calib : HcalCalibrations) (cs : CaloSamples)
    (frame : QIE11DataFrame) (q : float) (ts : Z) (e : exception) :
  QIE11.sum_step calib cs frame q ts <> Throw e.
Proof.
  unfold QIE11.sum_step, at_index.
  cbv [mbind outcome_bind].
  repeat case_match; discriminate.
Qed.

Lemma sipmQ_loop_no_throw (calib : HcalCalibrations) (cs : CaloSamples)
    (frame : QIE11DataFrame) (l : list Z) :
  forall (q : float) (e : exception),
    ofold (QIE11.sum_step calib cs frame) l q <> Throw e.
Proof.
  induction l as [|ts l IH]; intros q e; [cbn; discriminate|].
  cbn [ofold].
  pose proof (sum_step_no_throw calib cs frame q ts) as Hstep.
  cbv [mbind outcome_bind].
  destruct (QIE11.sum_step calib cs frame q ts) as [q'|e'|u].
  - apply IH.
  - destruct (Hstep e' eq_refl).
  - discriminate.
Qed.

(** C9: the corrector of the legacy frame kinds (the primary template)
    returns the decoded charge unchanged, for every charge and pedestal;
    its construction always returns a corrector, never an error, and the
    result is the same whatever the conditions database holds, SiPM
    parameters included. *)
Theorem legacy_corrector_is_identity (DFrame : Type) (shift nsum : Z)
    (cond : HcalDbService) (cell : HcalDetId) (cs : CaloSamples) (soi : Z)
    (frame : DFrame) (maxTS : Z) :
  (exists rcfs,
     Primary.construct shift nsum cond cell cs soi frame maxTS = Ok rcfs) /\
  (forall cond' : HcalDbService,
     Primary.construct shift nsum cond' cell cs soi frame maxTS =
     Primary.construct shift nsum cond cell cs soi frame maxTS) /\
  (forall (rcfs : Primary.RawChargeFromSample) (x p : float),
     Primary.getRawCharge rcfs x p = x).
Proof.
  split; [|split].
  - eexists. reflexivity.
  - intros cond'. reflexivity.
  - intros rcfs x p. reflexivity.
Qed.

(** C7: when the conversion factor is accepted, the constructor of the SiPM
    corrector returns a corrector whose stored factor is the correction
    looked up at effectivePixelsFired, the sum over the integration window
    of decoded charge minus pedestal, divided by the fC per photoelectron
    factor; every later call for a time slice reads that stored factor:
    the corrected value is (charge - pedestal) * factor + pedestal, and
    that is the value the batch loop writes for the slice. *)
Theorem sipm_correction_factor_cached (shift nsum : Z) (cond : HcalDbService)
    (cell : HcalDetId) (cs : CaloSamples) (soi : Z) (frame : QIE11DataFrame)
    (maxTS : Z) :
  let par := getHcalSiPMParameter cond cell in
  let calib := getHcalCalibrations cond cell in
  (getFCByPE par <=? 0)%float = false ->
  maxTS <= Z.of_nat (length (samples frame)) ->
  maxTS <= Z.of_nat (length cs) ->
  exists rcfs,
    QIE11.construct shift nsum cond cell cs soi frame maxTS = Ok rcfs /\
    QIE11.factor_ rcfs =
      getRecoCorrectionFactor (getNonLinearities cond (getType par))
        (spec_effectivePixelsFired calib (getFCByPE par) frame cs
           (QIE11.firstTS soi shift) (QIE11.lastTS soi shift nsum maxTS)) /\
    forall (ts : Z) (s : Sample) (c : float),
      0 <= ts ->
      samples frame !! Z.to_nat ts = Some s ->
      cs !! Z.to_nat ts = Some c ->
      QIE11.getRawCharge rcfs c (pedestal calib (capid s)) =
        ((c - pedestal calib (capid s)) * QIE11.factor_ rcfs
         + pedestal calib (capid s))%float /\
      forall (ib ninput : Z) (st : state),
        charge_step calib cs frame rcfs ib ninput ts st =
        write (wrap_unsigned (ib * ninput + ts + 2))
          (double_to_float
             ((c - pedestal calib (capid s)) * QIE11.factor_ rcfs
              + pedestal calib (capid s))%float) st.
Proof.
  intros par calib Hfc Hs Hc.
  eexists. split; [apply construct_Ok; assumption|].
  split; [reflexivity|].
  intros ts s c Hts Ls Lc. split; [reflexivity|].
  intros ib ninput st.
  unfold charge_step, at_index.
  destruct (Z.leb_spec 0 ts); [|lia].
  rewrite Ls, Lc. reflexivity.
Qed.

(** C8: without overflow of the two additions, the window of the SiPM
    corrector is firstTS = max(soi + shift, 0) and
    lastTS = min(firstTS + nsum, maxTS); every time slice the summing loop
    visits lies in [0, maxTS); and when firstTS >= maxTS the loop visits
    nothing, the summed charge is zero, and for a positive conversion
    factor the quotient is zero and the constructor returns a corrector
    whose factor is the correction at zero. *)
Theorem integration_window_clamped (shift nsum : Z) (cond : HcalDbService)
    (cell : HcalDetId) (cs : CaloSamples) (soi : Z) (frame : QIE11DataFrame)
    (maxTS : Z) :
  let par := getHcalSiPMParameter cond cell in
  let calib := getHcalCalibrations cond cell in
  let first := QIE11.firstTS soi shift in
  let last := QIE11.lastTS soi shift nsum maxTS in
  int_range (soi + shift) ->
  int_range (Z.max (soi + shift) 0 + nsum) ->
  first = Z.max (soi + shift) 0 /\
  last = Z.min (first + nsum) maxTS /\
  (forall ts : Z, ts ∈ range first last -> 0 <= ts < maxTS) /\
  (maxTS <= first ->
   range first last = [] /\
   QIE11.sipmQ_loop calib cs frame first last = Ok 0%float /\
   ((0 <? getFCByPE par)%float = true ->
    spec_effectivePixelsFired calib (getFCByPE par) frame cs first last
      = 0%float /\
    exists rcfs,
      QIE11.construct shift nsum cond cell cs soi frame maxTS = Ok rcfs /\
      QIE11.factor_ rcfs =
        getRecoCorrectionFactor (getNonLinearities cond (getType par)) 0)).
Proof.
  intros par calib first last H1 H2.
  assert (Hfirst : first = Z.max (soi + shift) 0).
  { unfold first, QIE11.firstTS. rewrite wrap_int_small by assumption.
    reflexivity. }
  assert (Hlast : last = Z.min (first + nsum) maxTS).
  { unfold last, QIE11.lastTS. fold first. rewrite Hfirst.
    rewrite wrap_int_small by assumption. reflexivity. }
  split; [exact Hfirst|]. split; [exact Hlast|]. split.
  - intros ts Hts. apply elem_of_range in Hts. lia.
  - intros Hempty.
    assert (Hr : range first last = []) by (apply range_empty; lia).
    split; [exact Hr|].
    split; [unfold QIE11.sipmQ_loop; rewrite Hr; reflexivity|].
    intros Hpos.
    assert (Hw : integration_window frame cs first last = []).
    { unfold integration_window.
      replace (Z.to_nat (last - first)) with 0%nat by lia. reflexivity. }
    split.
    + unfold spec_effectivePixelsFired. rewrite Hw. cbn [foldl].
      apply div_zero_positive, Hpos.
    + unfold QIE11.construct. fold par.
      rewrite (positive_not_leb _ Hpos).
      fold first last calib. unfold QIE11.sipmQ_loop. rewrite Hr.
      cbn. eexists. split; [reflexivity|]. cbn.
      rewrite (div_zero_positive _ Hpos). reflexivity.
Qed.

(** ** The state monad *)

Lemma M_bind_unfold {A B} (c : M A) (k : A -> M B) (s : state) :
  (c ≫= k) s =
  match c s with
  | (s', Ok a) => k a s'
  | (s', Throw e) => (s', Throw e)
  | (s', Undefined u) => (s', Undefined u)
  end.
Proof. reflexivity. Qed.

Lemma write_Ok (i : Z) (v : float) (s : state) :
  0 <= i < Z.of_nat (length (iInput s)) ->
  write i v s =
  ({| tmp := tmp s; iInput := <[Z.to_nat i := v]> (iInput s) |}, Ok ()).
Proof.
  intros H. unfold write.
  destruct (Z.leb_spec 0 i); [|lia].
  destruct (Z.ltb_spec i (Z.of_nat (length (iInput s)))); [|lia].
  reflexivity.
Qed.

Lemma succeeds_ret {A} (L : Z) (a : A) : succeeds_in L (mret a).
Proof. intros s Hs. exists s, a. auto. Qed.

Lemma succeeds_lift {A} (L : Z) (a : A) : succeeds_in L (lift (Ok a)).
Proof. intros s Hs. exists s, a. auto. Qed.

Lemma succeeds_bind {A B} (L : Z) (c : M A) (k : A -> M B) :
  succeeds_in L c -> (forall a, succeeds_in L (k a)) ->
  succeeds_in L (c ≫= k).
Proof.
  intros Hc Hk s Hs. destruct (Hc s Hs) as (s1 & a & E & H1).
  rewrite M_bind_unfold, E. apply Hk, H1.
Qed.

Lemma succeeds_write (L i : Z) (v : float) :
  0 <= i < L -> succeeds_in L (write i v).
Proof.
  intros Hi s Hs. rewrite write_Ok by lia.
  eexists _, _. split; [reflexivity|]. cbn. rewrite length_insert. exact Hs.
Qed.

Lemma succeeds_push_back (L : Z) (rh : HBHERecHit) :
  succeeds_in L (push_back rh).
Proof. intros s Hs. eexists _, _. split; [reflexivity|]. exact Hs. Qed.

Lemma succeeds_mfor {A} (L : Z) (body : A -> M unit) (l : list A) :
  (forall a, a ∈ l -> succeeds_in L (body a)) ->
  succeeds_in L (mfor body l).
Proof.
  induction l as [|a l IH]; intros H; cbn [mfor].
  - apply succeeds_ret.
  - apply succeeds_bind.
    + apply H. left.
    + intros _. apply IH. intros b Hb. apply H. right. exact Hb.
Qed.

Lemma keeps_ret {A} (a : A) : keeps_tmp (mret a : M A).
Proof. intros s s' o [= <- _]. reflexivity. Qed.

Lemma keeps_lift {A} (c : outcome A) : keeps_tmp (lift c).
Proof. intros s s' o [= <- _]. reflexivity. Qed.

Lemma keeps_write (i : Z) (v : float) : keeps_tmp (write i v).
Proof.
  intros s s' o. unfold write.
  destruct (_ && _); intros [= <- _]; reflexivity.
Qed.

Lemma keeps_bind {A B} (c : M A) (k : A -> M B) :
  keeps_tmp c -> (forall a, keeps_tmp (k a)) -> keeps_tmp (c ≫= k).
Proof.
  intros Hc Hk s s' o. rewrite M_bind_unfold.
  destruct (c s) as [s1 [a|e|u]] eqn:E; pose proof (Hc _ _ _ E) as H1.
  - intros H2. rewrite (Hk _ _ _ _ H2). exact H1.
  - intros [= <- _]. exact H1.
  - intros [= <- _]. exact H1.
Qed.

Lemma keeps_mfor {A} (body : A -> M unit) (l : list A) :
  (forall a, keeps_tmp (body a)) -> keeps_tmp (mfor body l).
Proof.
  intros H. induction l as [|a l IH]; cbn [mfor].
  - apply keeps_ret.
  - apply keeps_bind; [apply H | intros _; exact IH].
Qed.

Lemma appends_ret {A} (a : A) : appends (mret a : M A) [].
Proof. intros s s' b [= <- _]. rewrite app_nil_r. reflexivity. Qed.

Lemma appends_push_back (rh : HBHERecHit) : appends (push_back rh) [rh].
Proof. intros s s' b [= <-]. reflexivity. Qed.

Lemma appends_keeps_bind {A B} (c : M A) (k : A -> M B)
    (l : list HBHERecHit) :
  keeps_tmp c -> (forall a, appends (k a) l) -> appends (c ≫= k) l.
Proof.
  intros Hc Hk s s' b. rewrite M_bind_unfold.
  destruct (c s) as [s1 [a|e|u]] eqn:E; [|discriminate..].
  intros H2. rewrite (Hk _ _ _ _ H2), (Hc _ _ _ E). reflexivity.
Qed.

Lemma appends_bind {A B} (c : M A) (k : A -> M B)
    (l1 l2 : list HBHERecHit) :
  appends c l1 -> (forall a, appends (k a) l2) ->
  appends (c ≫= k) (l1 ++ l2).
Proof.
  intros Hc Hk s s' b. rewrite M_bind_unfold.
  destruct (c s) as [s1 [a|e|u]] eqn:E; [|discriminate..].
  intros H2. rewrite (Hk _ _ _ _ H2), (Hc _ _ _ E), app_assoc. reflexivity.
Qed.

(** ** One frame *)

Lemma keeps_charge_step (calib : HcalCalibrations) (cs : CaloSamples)
    (frame : QIE11DataFrame) (rcfs : QIE11.RawChargeFromSample)
    (ib ninput ts : Z) :
  keeps_tmp (charge_step calib cs frame rcfs ib ninput ts).
Proof.
  unfold charge_step.
  apply keeps_bind; [apply keeps_lift|intros s].
  apply keeps_bind; [apply keeps_lift|intros c].
  apply keeps_write.
Qed.

Lemma keeps_depth_step (self : HcalPhase1Reconstructor) (ib ninput d : Z) :
  keeps_tmp (depth_step self ib ninput d).
Proof. unfold depth_step. destruct (_ =? _)%float; apply keeps_write. Qed.

Lemma process_frame_appends (MAXSAMPLES : Z) (self : HcalPhase1Reconstructor)
    (cond : HcalDbService) (ninput pos : Z) (frame : QIE11DataFrame) :
  appends (process_frame MAXSAMPLES self cond ninput pos frame)
          (if admitted (id frame) then [recorded_hit frame] else []).
Proof.
  unfold process_frame. cbv zeta.
  destruct (admitted (id frame)); cbn [negb]; [|apply appends_ret].
  apply appends_keeps_bind; [apply keeps_lift|intros rcfs].
  apply appends_keeps_bind;
    [apply keeps_mfor; intros ts; apply keeps_charge_step|intros _].
  apply appends_keeps_bind; [apply keeps_write|intros _].
  apply appends_keeps_bind; [apply keeps_write|intros _].
  apply appends_keeps_bind;
    [apply keeps_mfor; intros d; apply keeps_depth_step|intros _].
  apply appends_push_back.
Qed.

Lemma processData_from_appends (MAXSAMPLES : Z)
    (self : HcalPhase1Reconstructor) (cond : HcalDbService) (ninput : Z)
    (coll : list QIE11DataFrame) :
  forall pos : Z,
    appends (processData_from MAXSAMPLES self cond ninput pos coll)
            (recorded_hit <$> admitted_frames coll).
Proof.
  induction coll as [|frame rest IH]; intros pos; cbn [processData_from].
  - apply appends_ret.
  - replace (recorded_hit <$> admitted_frames (frame :: rest))
      with ((if admitted (id frame) then [recorded_hit frame] else [])
            ++ (recorded_hit <$> admitted_frames rest)).
    + apply appends_bind; [apply process_frame_appends|intros _; apply IH].
    + unfold admitted_frames. rewrite filter_cons.
      destruct (admitted (id frame)); case_decide; try done.
Qed.

Lemma charge_step_succeeds (L : Z) (calib : HcalCalibrations)
    (cs : CaloSamples) (frame : QIE11DataFrame)
    (rcfs : QIE11.RawChargeFromSample) (ib ninput ts : Z) :
  0 <= ts < Z.of_nat (length (samples frame)) ->
  ts < Z.of_nat (length cs) ->
  0 <= ib * ninput + ts + 2 < L -> L <= 2 ^ 32 ->
  succeeds_in L (charge_step calib cs frame rcfs ib ninput ts).
Proof.
  intros Hs Hc Hi HL. unfold charge_step.
  destruct (at_index_Ok (samples frame) ts) as (s & -> & _); [lia|].
  apply succeeds_bind; [apply succeeds_lift|intros s'].
  destruct (at_index_Ok cs ts) as (c & -> & _); [lia|].
  apply succeeds_bind; [apply succeeds_lift|intros c'].
  apply succeeds_write. rewrite wrap_unsigned_small; lia.
Qed.

Lemma depth_step_succeeds (L : Z) (self : HcalPhase1Reconstructor)
    (ib ninput d : Z) :
  0 <= ib * ninput + d + 10 < L -> L <= 2 ^ 32 ->
  succeeds_in L (depth_step self ib ninput d).
Proof.
  intros Hi HL. unfold depth_step.
  destruct (_ =? _)%float; apply succeeds_write;
    rewrite wrap_unsigned_small; lia.
Qed.

Lemma process_frame_succeeds (L MAXSAMPLES : Z)
    (self : HcalPhase1Reconstructor) (cond : HcalDbService)
    (ninput pos : Z) (frame : QIE11DataFrame) :
  readable_frame cond frame ->
  0 <= pos -> 0 <= ninput ->
  pos * ninput + 14 < L -> pos + 1 < L -> L <= 2 ^ 32 ->
  succeeds_in L (process_frame MAXSAMPLES self cond ninput pos frame).
Proof.
  intros Hframe Hpos Hn Hrow Hmeta HL.
  unfold process_frame. cbv zeta.
  destruct (admitted (id frame)) eqn:Hadm; cbn [negb];
    [|apply succeeds_ret].
  destruct (Hframe Hadm) as (Hfc & H8 & Hlen).
  rewrite construct_Ok by (first [exact Hfc | lia]).
  rewrite (wrap_unsigned_small pos) by lia.
  assert (0 <= pos * ninput) by nia.
  apply succeeds_bind; [apply succeeds_lift|intros rcfs].
  apply succeeds_bind.
  { apply succeeds_mfor. intros ts Hts. apply elem_of_range in Hts.
    apply charge_step_succeeds; lia. }
  intros _. apply succeeds_bind.
  { apply succeeds_write. rewrite wrap_unsigned_small; lia. }
  intros _. apply succeeds_bind.
  { apply succeeds_write. rewrite wrap_unsigned_small; lia. }
  intros _. apply succeeds_bind.
  { apply succeeds_mfor. intros d Hd. apply elem_of_range in Hd.
    apply depth_step_succeeds; lia. }
  intros _. apply succeeds_push_back.
Qed.

(** ** The collection *)

Lemma processData_from_succeeds (L MAXSAMPLES : Z)
    (self : HcalPhase1Reconstructor) (cond : HcalDbService)
    (ninput batchSize : Z) (coll : list QIE11DataFrame) :
  15 <= ninput -> L = ninput * batchSize -> L <= 2 ^ 32 ->
  Forall (readable_frame cond) coll ->
  forall pos : Z,
    0 <= pos -> pos + Z.of_nat (length coll) <= batchSize ->
    succeeds_in L (processData_from MAXSAMPLES self cond ninput pos coll).
Proof.
  intros Hn HL Hbound Hall.
  induction Hall as [|frame rest Hframe _ IH]; intros pos Hpos Hfit;
    cbn [processData_from].
  - apply succeeds_ret.
  - cbn [length] in Hfit. apply succeeds_bind.
    + apply process_frame_succeeds; try assumption; nia.
    + intros _. apply IH; lia.
Qed.

Lemma processData_from_app (MAXSAMPLES : Z) (self : HcalPhase1Reconstructor)
    (cond : HcalDbService) (ninput : Z) (l1 l2 : list QIE11DataFrame) :
  forall (pos : Z) (s : state),
    processData_from MAXSAMPLES self cond ninput pos (l1 ++ l2) s =
    (processData_from MAXSAMPLES self cond ninput pos l1;;
     processData_from MAXSAMPLES self cond ninput
       (pos + Z.of_nat (length l1)) l2) s.
Proof.
  induction l1 as [|frame l1 IH]; intros pos s.
  - cbn [app processData_from length]. rewrite M_bind_unfold.
    replace (pos + Z.of_nat 0) with pos by lia. reflexivity.
  - cbn [app processData_from length]. rewrite !M_bind_unfold.
    destruct (process_frame _ _ _ _ _ _ s) as [s1 [[]|e|u]]; try reflexivity.
    rewrite IH, M_bind_unfold.
    replace (pos + 1 + Z.of_nat (length l1))
      with (pos + Z.of_nat (S (length l1))) by lia.
    reflexivity.
Qed.

(** An admitted frame whose conversion factor is rejected. *)
Lemma process_frame_throws (MAXSAMPLES : Z) (self : HcalPhase1Reconstructor)
    (cond : HcalDbService) (ninput pos : Z) (frame : QIE11DataFrame)
    (s : state) :
  admitted (id frame) = true ->
  (getFCByPE (getHcalSiPMParameter cond (id frame)) <=? 0)%float = true ->
  process_frame MAXSAMPLES self cond ninput pos frame s =
  (s, Throw (HBHEPhase1BadDB (id frame))).
Proof.
  intros Hadm Hfc. unfold process_frame, QIE11.construct. cbv zeta.
  rewrite Hadm, Hfc. reflexivity.
Qed.

(** ** The output *)

Lemma produce_fold (l : list HBHERecHit) :
  forall (acc : list HBHERecHit) (ib : Z),
    (foldl produce_step (acc, ib) l).1 =
    acc ++ ((fun it => emitted_hit (rh_id it)) <$> l).
Proof.
  induction l as [|it l IH]; intros acc ib; cbn [foldl fmap list_fmap].
  - rewrite app_nil_r. reflexivity.
  - unfold produce_step at 2. cbn [fst snd]. rewrite IH, <- app_assoc.
    rewrite double_to_float_half. reflexivity.
Qed.

Lemma produce_map (s : state) (iOutput : Output) :
  produce s iOutput = (fun it => emitted_hit (rh_id it)) <$> tmp s.
Proof. unfold produce. apply produce_fold. Qed.

(** ** The claims on the batch and on the output *)

(** C5: the records [produce] emits do not depend on the batch returned by
    the inference engine, and each carries the same scalars: energy 0.5,
    time 0 and falling time 0. *)
Theorem produce_ignores_output (s : state) (out1 out2 : Output) :
  produce s out1 = produce s out2 /\
  Forall (fun r => rh_energy r = 0.5%float /\ rh_time r = 0%float /\
                   rh_timeFalling r = 0%float)
         (produce s out1).
Proof.
  split; [rewrite !produce_map; reflexivity|].
  rewrite produce_map. apply Forall_fmap, Forall_true.
  intros it. cbn. auto.
Qed.

(** C4, amended: [produce] emits one record per entry of [tmp], in the
    order of [tmp], and record [i] carries the identifier of entry [i]
    with the fixed scalars 0.5, 0 and 0, whatever the batch returned by
    the inference engine holds. *)
Theorem produce_follows_ledger (s : state) (iOutput : Output) :
  produce s iOutput = (fun it => emitted_hit (rh_id it)) <$> tmp s.
Proof. apply produce_map. Qed.

(** C4 as stated fails: for a ledger of one channel the record is the same
    for two different returned batches, and its energy is not the value of
    row 0. *)
Lemma produce_scalars_not_from_output :
  produce (mkState [recorded_hit barrel_frame] []) [2%float] =
    [emitted_hit (id barrel_frame)] /\
  produce (mkState [recorded_hit barrel_frame] []) [3%float] =
    [emitted_hit (id barrel_frame)] /\
  ~ scalars_from_output
      (produce (mkState [recorded_hit barrel_frame] []) [2%float])
      [2%float].
Proof.
  split; [vm_compute; reflexivity|].
  split; [vm_compute; reflexivity|].
  intros H. specialize (H 0%nat (emitted_hit (id barrel_frame))).
  rewrite produce_map in H. specialize (H eq_refl).
  vm_compute in H. discriminate H.
Qed.

Lemma acquire_unfold (MAXSAMPLES : Z) (self : HcalPhase1Reconstructor)
    (iEvent : Event) (iSetup : EventSetup) (s : state) :
  acquire MAXSAMPLES self iEvent iSetup s =
  processData_from MAXSAMPLES self (conditions iSetup) (client_ninput self) 0
    (digis iEvent)
    {| tmp := [];
       iInput :=
         replicate
           (Z.to_nat
              (wrap_unsigned (client_ninput self * client_batchSize self)))
           0%float |}.
Proof. reflexivity. Qed.

(** C10: whatever [tmp] held before, after an acquisition that returns
    [tmp] holds one hit per admitted frame of this event, in the order of
    the collection, and [produce] emits one record per admitted frame with
    that frame's identifier, in the same order. *)
Theorem ledger_rebuilt_each_cycle (MAXSAMPLES : Z)
    (self : HcalPhase1Reconstructor) (iEvent : Event) (iSetup : EventSetup)
    (s s' : state) (iOutput : Output) :
  acquire MAXSAMPLES self iEvent iSetup s = (s', Ok ()) ->
  tmp s' = recorded_hit <$> admitted_frames (digis iEvent) /\
  produce s' iOutput =
    (fun frame => emitted_hit (id frame)) <$> admitted_frames (digis iEvent).
Proof.
  rewrite acquire_unfold. intros H.
  apply processData_from_appends in H. cbn [tmp app] in H.
  split; [exact H|].
  rewrite produce_map, H, <- list_fmap_compose. reflexivity.
Qed.

Lemma ledger_rebuilt_each_cycle_witness :
  produce
    (acquire 10 (example_self 2) rejected_then_admitted example_setup
       (mkState [recorded_hit barrel_frame] [])).1 [] =
  [emitted_hit (id endcap_frame)].
Proof.
  refine (proj2 (ledger_rebuilt_each_cycle 10 (example_self 2)
                   rejected_then_admitted example_setup
                   (mkState [recorded_hit barrel_frame] []) _ [] _)).
  vm_compute. reflexivity.
Defined.

(** C3, amended: when the collection of the event holds at most batchSize
    frames, rows are at least fifteen features wide, the size of the
    buffer fits 32 bits and every admitted frame is readable, the
    acquisition returns and the buffer still has ninput * batchSize
    cells: every write fell inside it. The code has no test of the
    capacity. *)
Theorem batch_within_capacity (MAXSAMPLES : Z)
    (self : HcalPhase1Reconstructor) (iEvent : Event) (iSetup : EventSetup)
    (s : state) :
  15 <= client_ninput self ->
  0 <= client_batchSize self ->
  client_ninput self * client_batchSize self < 2 ^ 32 ->
  Z.of_nat (length (digis iEvent)) <= client_batchSize self ->
  Forall (readable_frame (conditions iSetup)) (digis iEvent) ->
  exists s' : state,
    acquire MAXSAMPLES self iEvent iSetup s = (s', Ok ()) /\
    Z.of_nat (length (iInput s')) =
      client_ninput self * client_batchSize self.
Proof.
  intros Hn Hb H32 Hfit Hall. rewrite acquire_unfold.
  destruct (processData_from_succeeds
              (client_ninput self * client_batchSize self) MAXSAMPLES self
              (conditions iSetup) (client_ninput self)
              (client_batchSize self) (digis iEvent))
    with (pos := 0)
         (s := {| tmp := [];
                  iInput :=
                    replicate
                      (Z.to_nat
                         (wrap_unsigned
                            (client_ninput self * client_batchSize self)))
                      0%float |})
    as (s' & [] & E & Hlen); try first [assumption | reflexivity | lia].
  - cbn [iInput]. rewrite length_replicate, wrap_unsigned_small; nia.
  - exists s'. auto.
Qed.

Lemma batch_within_capacity_witness :
  exists s' : state,
    acquire 10 (example_self 2) two_admitted example_setup empty_state =
      (s', Ok ()) /\
    Z.of_nat (length (iInput s')) = 15 * 2.
Proof.
  apply (batch_within_capacity 10 (example_self 2) two_admitted
           example_setup empty_state).
  - vm_compute. discriminate.
  - vm_compute. discriminate.
  - reflexivity.
  - vm_compute. discriminate.
  - repeat constructor; intros _; vm_compute; auto.
Defined.

(** C3 as stated fails: with a capacity of one row and two admitted
    frames the acquisition raises nothing; it reaches a write at index 17
    of a buffer of 15 cells. *)
Lemma overrun_without_capacity_error :
  length (iInput (acquire 10 (example_self 1) two_admitted example_setup
                    empty_state).1) = 15%nat /\
  (acquire 10 (example_self 1) two_admitted example_setup empty_state).2 =
    Undefined (OutOfBoundsWrite 17).
Proof. split; vm_compute; reflexivity. Qed.

(** C6: for an admitted frame whose conversion factor is not positive, the
    constructor of the corrector throws HBHEPhase1BadDB; if the frames
    before it were processed, the acquisition ends with that exception,
    nothing catches it, and the cycle ends with it too, so no record is
    emitted. For a positive factor the constructor throws nothing. *)
Theorem bad_calibration_aborts_cycle (MAXSAMPLES : Z)
    (self : HcalPhase1Reconstructor) (predict : Input -> Output)
    (iSetup : EventSetup) (pre post : list QIE11DataFrame)
    (frame : QIE11DataFrame) (s s1 : state) :
  admitted (id frame) = true ->
  acquire MAXSAMPLES self (mkEvent pre) iSetup s = (s1, Ok ()) ->
  ((getFCByPE (getHcalSiPMParameter (conditions iSetup) (id frame)) <=? 0)%float
     = true ->
   (forall (shift nsum soi maxTS : Z) (cs : CaloSamples),
      QIE11.construct shift nsum (conditions iSetup) (id frame) cs soi frame
        maxTS = Throw (HBHEPhase1BadDB (id frame))) /\
   acquire MAXSAMPLES self (mkEvent (pre ++ frame :: post)) iSetup s =
     (s1, Throw (HBHEPhase1BadDB (id frame))) /\
   cycle MAXSAMPLES self predict (mkEvent (pre ++ frame :: post)) iSetup s =
     (s1, Throw (HBHEPhase1BadDB (id frame)))) /\
  ((0 <? getFCByPE (getHcalSiPMParameter (conditions iSetup) (id frame)))%float
     = true ->
   forall (shift nsum soi maxTS : Z) (cs : CaloSamples) (e : exception),
     QIE11.construct shift nsum (conditions iSetup) (id frame) cs soi frame
       maxTS <> Throw e).
Proof.
  intros Hadm Hpre. split.
  - intros Hfc.
    assert (Hacq :
      acquire MAXSAMPLES self (mkEvent (pre ++ frame :: post)) iSetup s =
      (s1, Throw (HBHEPhase1BadDB (id frame)))).
    { rewrite acquire_unfold in *. cbn [digis] in *.
      rewrite processData_from_app, M_bind_unfold, Hpre.
      cbn [processData_from]. rewrite M_bind_unfold.
      rewrite process_frame_throws by assumption. reflexivity. }
    split; [|split].
    + intros shift nsum soi maxTS cs. unfold QIE11.construct.
      rewrite Hfc. reflexivity.
    + exact Hacq.
    + unfold cycle. rewrite Hacq. reflexivity.
  - intros Hpos shift nsum soi maxTS cs e. unfold QIE11.construct.
    rewrite (positive_not_leb _ Hpos). unfold QIE11.sipmQ_loop.
    pose proof (sipmQ_loop_no_throw
                  (getHcalCalibrations (conditions iSetup) (id frame)) cs
                  frame
                  (range (QIE11.firstTS soi shift)
                     (QIE11.lastTS soi shift nsum maxTS)) 0%float) as Hloop.
    cbv [mbind outcome_bind].
    destruct (ofold _ _ _) as [q|e'|u]; [discriminate| |discriminate].
    destruct (Hloop e' eq_refl).
Qed.

Lemma bad_calibration_aborts_cycle_witness :
  cycle 10 (example_self 3) (fun x => x)
    (mkEvent ([barrel_frame] ++ endcap_frame :: [barrel_frame]))
    (mkEventSetup (example_cond (-20))) empty_state =
  ((acquire 10 (example_self 3) (mkEvent [barrel_frame])
      (mkEventSetup (example_cond (-20))) empty_state).1,
   Throw (HBHEPhase1BadDB (id endcap_frame))) /\
  QIE11.construct 0 3 (example_cond (-20)) (id barrel_frame)
    (adc2fC (example_cond (-20)) barrel_frame) 3 barrel_frame 8 <>
  Throw (HBHEPhase1BadDB (id barrel_frame)).
Proof.
  split.
  - refine (proj2 (proj2 (proj1
      (bad_calibration_aborts_cycle 10 (example_self 3) (fun x => x)
         (mkEventSetup (example_cond (-20))) [barrel_frame] [barrel_frame]
         endcap_frame empty_state _ _ _) _))).
    + reflexivity.
    + vm_compute. reflexivity.
    + vm_compute. reflexivity.
  - refine (proj2
      (bad_calibration_aborts_cycle 10 (example_self 3) (fun x => x)
         (mkEventSetup (example_cond (-20))) [] [] barrel_frame empty_state
         _ _ _) _ 0 3 3 8 _ _).
    + reflexivity.
    + vm_compute. reflexivity.
    + vm_compute. reflexivity.
Defined.

Lemma sipm_correction_factor_cached_witness :
  exists rcfs,
    QIE11.construct 0 3 (example_cond 0) (id barrel_frame)
      (adc2fC (example_cond 0) barrel_frame) 3 barrel_frame 8 = Ok rcfs /\
    QIE11.factor_ rcfs = 74.5%float /\
    QIE11.getRawCharge rcfs 10 1 = 671.5%float.
Proof.
  destruct (sipm_correction_factor_cached 0 3 (example_cond 0)
              (id barrel_frame) (adc2fC (example_cond 0) barrel_frame) 3
              barrel_frame 8)
    as (rcfs & E & Hfactor & Hslice).
  - vm_compute. reflexivity.
  - vm_compute. discriminate.
  - vm_compute. discriminate.
  - exists rcfs. split; [exact E|].
    assert (H74 : QIE11.factor_ rcfs = 74.5%float).
    { rewrite Hfactor. vm_compute. reflexivity. }
    split; [exact H74|].
    destruct (Hslice 0 (mkSample 1 1) 10%float) as [Hraw _];
      [lia | reflexivity | reflexivity |].
    change (pedestal _ _) with 1%float in Hraw.
    rewrite Hraw, H74. vm_compute. reflexivity.
Defined.

Lemma integration_window_clamped_witness :
  QIE11.firstTS 3 10 = 13 /\
  QIE11.lastTS 3 10 3 8 = 8 /\
  exists rcfs,
    QIE11.construct 10 3 (example_cond 0) (id barrel_frame)
      (adc2fC (example_cond 0) barrel_frame) 3 barrel_frame 8 = Ok rcfs /\
    QIE11.factor_ rcfs = 1%float.
Proof.
  destruct (integration_window_clamped 10 3 (example_cond 0)
              (id barrel_frame) (adc2fC (example_cond 0) barrel_frame) 3
              barrel_frame 8)
    as (Hfirst & Hlast & _ & Hempty).
  - unfold int_range. lia.
  - unfold int_range. lia.
  - split; [exact Hfirst|]. split; [rewrite Hlast, Hfirst; reflexivity|].
    destruct Hempty as (_ & _ & Hzero).
    + rewrite Hfirst. vm_compute. discriminate.
    + destruct Hzero as (_ & rcfs & E & Hfactor).
      * vm_compute. reflexivity.
      * exists rcfs. split; [exact E|].
        rewrite Hfactor. vm_compute. reflexivity.
Defined.

(** C1 at two admitted frames, rows of fifteen features: the eta and phi
    slots of row 1 stay 0 although its channel has eta -20 and phi 9;
    these two values sit at the flat indices 1 and 2, inside row 0, where
    they replace the phi of the first channel and its first charge; and
    the depth block of each row encodes the member [depth], not the depth
    of the channel (2 and 3 here): it is empty when the member holds 0 and
    marks depth 3 in both rows when the member holds 3. *)
Theorem metadata_not_in_row :
  tmp (acquire 10 (example_self 2) two_admitted example_setup empty_state).1
    = [recorded_hit barrel_frame; recorded_hit endcap_frame] /\
  iInput (acquire 10 (example_self 2) two_admitted example_setup
            empty_state).1 =
    [5; -20; 9; 1343; 2014.5; 2980; 3651.5; 4323; 4994.5; 5960;
     0; 0; 0; 0; 0;
     0; 0; 671.5; 1343; 2014.5; 2980; 3651.5; 4323; 4994.5; 5960;
     0; 0; 0; 0; 0]%float /\
  iInput (acquire 10 (example_self_depth 3 2) two_admitted example_setup
            empty_state).1 =
    [5; -20; 9; 1343; 2014.5; 2980; 3651.5; 4323; 4994.5; 5960;
     0; 0; 0; 1; 0;
     0; 0; 671.5; 1343; 2014.5; 2980; 3651.5; 4323; 4994.5; 5960;
     0; 0; 0; 1; 0]%float.
Proof. repeat split; vm_compute; reflexivity. Qed.

(** C2 at a rejected frame followed by an admitted one: [tmp] holds one
    entry, for the admitted frame, but its charges are written into row 1
    (flat indices 17 to 24); row 0, the row of the rejected frame, holds no
    charge. *)
Theorem rejected_frame_leaves_row_unused :
  tmp (acquire 10 (example_self 2) rejected_then_admitted example_setup
         empty_state).1 = [recorded_hit endcap_frame] /\
  (acquire 10 (example_self 2) rejected_then_admitted example_setup
     empty_state).2 = Ok () /\
  iInput (acquire 10 (example_self 2) rejected_then_admitted example_setup
            empty_state).1 =
    [0; -20; 9; 0; 0; 0; 0; 0; 0; 0; 0; 0; 0; 0; 0;
     0; 0; 671.5; 1343; 2014.5; 2980; 3651.5; 4323; 4994.5; 5960;
     0; 0; 0; 0; 0]%float.
Proof. repeat split; vm_compute; reflexivity. Qed.

(** * Further properties of the code *)

(** ** Sequences of writes *)

Lemma apply_writes_length (ws : list (Z * float)) :
  forall buf : list float, length (apply_writes ws buf) = length buf.
Proof.
  induction ws as [|w ws IH]; intros buf; cbn [apply_writes]; [reflexivity|].
  rewrite IH, length_insert. reflexivity.
Qed.

Lemma apply_writes_app (ws1 ws2 : list (Z * float)) :
  forall buf : list float,
    apply_writes (ws1 ++ ws2) buf = apply_writes ws2 (apply_writes ws1 buf).
Proof.
  induction ws1 as [|w ws1 IH]; intros buf; cbn [app apply_writes];
    [reflexivity|apply IH].
Qed.

Lemma lookup_apply_writes (j : Z) (ws : list (Z * float)) :
  forall buf : list float,
    0 <= j ->
    Forall (fun w => 0 <= w.1 < Z.of_nat (length buf)) ws ->
    apply_writes ws buf !! Z.to_nat j =
    match last_write j ws with
    | Some v => Some v
    | None => buf !! Z.to_nat j
    end.
Proof.
  induction ws as [|w ws IH]; intros buf Hj Hall;
    cbn [apply_writes last_write]; [reflexivity|].
  inversion Hall as [|w' ws' Hw Hws]; subst. cbn beta in Hw.
  rewrite IH; [|exact Hj|].
  - destruct (last_write j ws); [reflexivity|].
    destruct (Z.eqb_spec w.1 j) as [Heq|Hne].
    + rewrite <- Heq. apply list_lookup_insert_eq. lia.
    + apply list_lookup_insert_ne. lia.
  - rewrite length_insert. exact Hws.
Qed.

Lemma mfor_as_writes {A} (body : A -> M unit) (w : A -> Z * float)
    (l : list A) :
  forall s : state,
    (forall a s', a ∈ l -> body a s' = write (w a).1 (w a).2 s') ->
    (forall a, a ∈ l -> 0 <= (w a).1 < Z.of_nat (length (iInput s))) ->
    mfor body l s =
    ({| tmp := tmp s; iInput := apply_writes (w <$> l) (iInput s) |},
     Ok ()).
Proof.
  induction l as [|a l IH]; intros s Hbody Hidx; cbn [mfor fmap list_fmap].
  - destruct s. reflexivity.
  - rewrite M_bind_unfold, Hbody by left.
    rewrite write_Ok by (apply Hidx; left).
    rewrite IH.
    + reflexivity.
    + intros b s' Hb. apply Hbody. right. exact Hb.
    + intros b Hb. cbn [iInput]. rewrite length_insert.
      apply Hidx. right. exact Hb.
Qed.

Lemma charge_step_as_write (calib : HcalCalibrations) (cs : CaloSamples)
    (frame : QIE11DataFrame) (rcfs : QIE11.RawChargeFromSample)
    (ib ninput ts : Z) (s : state) :
  0 <= ts < Z.of_nat (length (samples frame)) ->
  ts < Z.of_nat (length cs) ->
  0 <= ib * ninput + ts + 2 < 2 ^ 32 ->
  charge_step calib cs frame rcfs ib ninput ts s =
  write (ib * ninput + ts + 2) (charge_value calib cs frame rcfs ts) s.
Proof.
  intros Hs Hc Hi. unfold charge_step, charge_value.
  destruct (at_index_Ok (samples frame) ts) as (sm & -> & ->); [lia|].
  destruct (at_index_Ok cs ts) as (c & -> & ->); [lia|].
  rewrite wrap_unsigned_small by lia. reflexivity.
Qed.

Lemma depth_step_as_write (self : HcalPhase1Reconstructor)
    (ib ninput d : Z) (s : state) :
  0 <= ib * ninput + d + 10 < 2 ^ 32 ->
  depth_step self ib ninput d s =
  write (ib * ninput + d + 10) (depth_value self d) s.
Proof.
  intros Hi. unfold depth_step, depth_value.
  rewrite wrap_unsigned_small by lia.
  destruct (_ =? _)%float; reflexivity.
Qed.

(** What [process_frame] does for an admitted frame that fits the buffer:
    the constructor returns a corrector, the buffer receives the writes of
    [frame_writes] and [tmp] one hit. *)
Lemma process_frame_as_writes (MAXSAMPLES : Z)
    (self : HcalPhase1Reconstructor) (cond : HcalDbService)
    (ninput pos : Z) (frame : QIE11DataFrame) (s : state) :
  admitted (id frame) = true ->
  readable_frame cond frame ->
  0 <= pos -> 0 <= ninput ->
  pos * ninput + 14 < Z.of_nat (length (iInput s)) ->
  pos + 1 < Z.of_nat (length (iInput s)) ->
  Z.of_nat (length (iInput s)) <= 2 ^ 32 ->
  exists rcfs : QIE11.RawChargeFromSample,
    QIE11.construct (sipmQTSShift_ self) (sipmQNTStoSum_ self) cond
      (id frame) (adc2fC cond frame) 3 frame
      (Z.min (Z.of_nat (length (adc2fC cond frame))) MAXSAMPLES) = Ok rcfs /\
    process_frame MAXSAMPLES self cond ninput pos frame s =
    ({| tmp := tmp s ++ [recorded_hit frame];
        iInput :=
          apply_writes
            (frame_writes self (getHcalCalibrations cond (id frame))
               (adc2fC cond frame) frame rcfs pos ninput)
            (iInput s) |},
     Ok ()).
Proof.
  intros Hadm Hframe Hpos Hn Hrow Hmeta HL.
  destruct (Hframe Hadm) as (Hfc & H8 & Hlen).
  assert (0 <= pos * ninput) by nia.
  eexists. split; [apply construct_Ok; first [exact Hfc | lia]|].
  unfold process_frame. cbv zeta. rewrite Hadm. cbn [negb].
  rewrite construct_Ok by (first [exact Hfc | lia]).
  rewrite (wrap_unsigned_small pos) by lia.
  rewrite M_bind_unfold. cbn [lift].
  rewrite M_bind_unfold.
  erewrite (mfor_as_writes _
              (fun ts => (pos * ninput + ts + 2, charge_value _ _ _ _ ts)));
    cycle 1.
  { intros ts s' Hts. apply elem_of_range in Hts.
    apply charge_step_as_write; lia. }
  { intros ts Hts. apply elem_of_range in Hts. cbn [fst]. lia. }
  rewrite M_bind_unfold, wrap_unsigned_small by lia.
  rewrite write_Ok by (cbn [iInput]; rewrite apply_writes_length; lia).
  rewrite M_bind_unfold, wrap_unsigned_small by lia.
  rewrite write_Ok
    by (cbn [iInput]; rewrite length_insert, apply_writes_length; lia).
  rewrite M_bind_unfold.
  erewrite (mfor_as_writes _
              (fun d => (pos * ninput + d + 10, depth_value self d)));
    cycle 1.
  { intros d s' Hd. apply elem_of_range in Hd.
    apply depth_step_as_write; lia. }
  { intros d Hd. apply elem_of_range in Hd. cbn [fst iInput].
    rewrite !length_insert, apply_writes_length. lia. }
  unfold push_back, frame_writes, recorded_hit. cbn [tmp iInput].
  rewrite !apply_writes_app. reflexivity.
Qed.

Lemma range_0_8 : range 0 8 = [0; 1; 2; 3; 4; 5; 6; 7].
Proof. reflexivity. Qed.

Lemma range_1_5 : range 1 5 = [1; 2; 3; 4].
Proof. reflexivity. Qed.

Lemma frame_writes_in_bounds (self : HcalPhase1Reconstructor)
    (calib : HcalCalibrations) (cs : CaloSamples) (frame : QIE11DataFrame)
    (rcfs : QIE11.RawChargeFromSample) (pos ninput L : Z) :
  0 <= pos -> 0 <= ninput -> pos * ninput + 14 < L -> pos + 1 < L ->
  Forall (fun w => 0 <= w.1 < L)
         (frame_writes self calib cs frame rcfs pos ninput).
Proof.
  intros Hpos Hn Hrow Hmeta. assert (0 <= pos * ninput) by nia.
  unfold frame_writes. rewrite range_0_8, range_1_5.
  cbn [fmap list_fmap app]. repeat constructor; cbn [fst]; lia.
Qed.

(** Decides the comparisons of [last_write] over the writes of a frame. *)
Ltac decide_last_write :=
  repeat match goal with
         | |- context [Z.eqb ?a ?b] =>
             destruct (Z.eqb_spec a b); try lia
         end.

(** X1: for an admitted, readable frame at position pos of a buffer that
    holds row pos and the cells pos and pos + 1, with rows of at least one
    feature, [process_frame] returns and leaves: in cell
    pos * ninput + ts + 2, for each of the eight time slices, the corrected
    charge of the slice rounded to float; in cell pos the eta of the cell
    and in cell pos + 1 its phi; in cell pos * ninput + d + 10, for d from
    1 to 4, the value 1 if the member depth equals d and 0 otherwise. *)
Theorem frame_row_layout (MAXSAMPLES : Z) (self : HcalPhase1Reconstructor)
    (cond : HcalDbService) (ninput pos : Z) (frame : QIE11DataFrame)
    (s : state) :
  admitted (id frame) = true ->
  readable_frame cond frame ->
  0 <= pos -> 1 <= ninput ->
  pos * ninput + 14 < Z.of_nat (length (iInput s)) ->
  pos + 1 < Z.of_nat (length (iInput s)) ->
  Z.of_nat (length (iInput s)) <= 2 ^ 32 ->
  exists (s' : state) (rcfs : QIE11.RawChargeFromSample),
    process_frame MAXSAMPLES self cond ninput pos frame s = (s', Ok ()) /\
    QIE11.construct (sipmQTSShift_ self) (sipmQNTStoSum_ self) cond
      (id frame) (adc2fC cond frame) 3 frame
      (Z.min (Z.of_nat (length (adc2fC cond frame))) MAXSAMPLES) = Ok rcfs /\
    (forall (ts : Z) (sm : Sample) (c : float),
       0 <= ts < 8 ->
       samples frame !! Z.to_nat ts = Some sm ->
       adc2fC cond frame !! Z.to_nat ts = Some c ->
       iInput s' !! Z.to_nat (pos * ninput + ts + 2) =
       Some (double_to_float
               (QIE11.getRawCharge rcfs c
                  (pedestal (getHcalCalibrations cond (id frame))
                     (capid sm))))) /\
    iInput s' !! Z.to_nat pos = Some (int_to_float (ieta (id frame))) /\
    iInput s' !! Z.to_nat (pos + 1) = Some (int_to_float (iphi (id frame))) /\
    (forall d : Z,
       1 <= d <= 4 ->
       iInput s' !! Z.to_nat (pos * ninput + d + 10) =
       Some (if (depth self =? int_to_float d)%float
             then 1%float else 0%float)).
Proof.
  intros Hadm Hframe Hpos Hn Hrow Hmeta HL.
  destruct (process_frame_as_writes MAXSAMPLES self cond ninput pos frame s)
    as (rcfs & Hrcfs & Hrun); try assumption; [lia|].
  eexists _, rcfs. split; [exact Hrun|]. split; [exact Hrcfs|].
  cbn [iInput].
  pose proof (frame_writes_in_bounds self
                (getHcalCalibrations cond (id frame)) (adc2fC cond frame)
                frame rcfs pos ninput _ Hpos ltac:(lia) Hrow Hmeta) as Hin.
  assert (Hu : pos <= pos * ninput) by nia.
  repeat split.
  - intros ts sm c Hts Hsm Hc.
    rewrite lookup_apply_writes by (first [lia | exact Hin]).
    unfold frame_writes. rewrite range_0_8, range_1_5.
    cbn [fmap list_fmap app last_write fst snd].
    decide_last_write;
      unfold charge_value;
      first [ assert (ts = 0) as -> by lia
            | assert (ts = 1) as -> by lia
            | assert (ts = 2) as -> by lia
            | assert (ts = 3) as -> by lia
            | assert (ts = 4) as -> by lia
            | assert (ts = 5) as -> by lia
            | assert (ts = 6) as -> by lia
            | assert (ts = 7) as -> by lia ];
      rewrite Hsm, Hc; reflexivity.
  - rewrite lookup_apply_writes by (first [lia | exact Hin]).
    unfold frame_writes. rewrite range_0_8, range_1_5.
    cbn [fmap list_fmap app last_write fst snd].
    decide_last_write. reflexivity.
  - rewrite lookup_apply_writes by (first [lia | exact Hin]).
    unfold frame_writes. rewrite range_0_8, range_1_5.
    cbn [fmap list_fmap app last_write fst snd].
    decide_last_write. reflexivity.
  - intros d Hd.
    rewrite lookup_apply_writes by (first [lia | exact Hin]).
    unfold frame_writes. rewrite range_0_8, range_1_5.
    cbn [fmap list_fmap app last_write fst snd].
    decide_last_write; unfold depth_value;
      first [ assert (d = 1) as -> by lia
            | assert (d = 2) as -> by lia
            | assert (d = 3) as -> by lia
            | assert (d = 4) as -> by lia ];
      reflexivity.
Qed.

(** X2: for the same frame [process_frame] appends one hit to [tmp], keeps
    the size of the buffer, and changes no cell other than pos, pos + 1,
    the eight charge cells and the four depth cells of row pos; the cell
    pos * ninput + 10 in particular is never written as part of the row. *)
Theorem frame_writes_nothing_else (MAXSAMPLES : Z)
    (self : HcalPhase1Reconstructor) (cond : HcalDbService)
    (ninput pos : Z) (frame : QIE11DataFrame) (s : state) :
  admitted (id frame) = true ->
  readable_frame cond frame ->
  0 <= pos -> 0 <= ninput ->
  pos * ninput + 14 < Z.of_nat (length (iInput s)) ->
  pos + 1 < Z.of_nat (length (iInput s)) ->
  Z.of_nat (length (iInput s)) <= 2 ^ 32 ->
  exists s' : state,
    process_frame MAXSAMPLES self cond ninput pos frame s = (s', Ok ()) /\
    tmp s' = tmp s ++ [recorded_hit frame] /\
    length (iInput s') = length (iInput s) /\
    forall j : Z,
      0 <= j -> j <> pos -> j <> pos + 1 ->
      ~ pos * ninput + 2 <= j <= pos * ninput + 9 ->
      ~ pos * ninput + 11 <= j <= pos * ninput + 14 ->
      iInput s' !! Z.to_nat j = iInput s !! Z.to_nat j.
Proof.
  intros Hadm Hframe Hpos Hn Hrow Hmeta HL.
  destruct (process_frame_as_writes MAXSAMPLES self cond ninput pos frame s)
    as (rcfs & Hrcfs & Hrun); try assumption.
  eexists. split; [exact Hrun|]. cbn [tmp iInput].
  split; [reflexivity|]. split; [apply apply_writes_length|].
  intros j Hj Hne0 Hne1 Hcharge Hdepth.
  rewrite lookup_apply_writes;
    [|exact Hj|apply frame_writes_in_bounds; assumption].
  unfold frame_writes. rewrite range_0_8, range_1_5.
  cbn [fmap list_fmap app last_write fst snd].
  decide_last_write. reflexivity.
Qed.

(** ** The depth block *)

Lemma SFeqb_finite (f : spec_float) (m : positive) (e : Z) :
  SFeqb f (S754_finite false m e) = true -> f = S754_finite false m e.
Proof.
  unfold SFeqb, SFcompare.
  destruct f as [?|[]| |[] m' e']; try discriminate.
  destruct (Z.compare_spec e' e) as [->| |]; try discriminate.
  destruct (Pos.compare_cont Eq m' m) eqn:E; try discriminate.
  intros _. f_equal. apply Pos.compare_eq. exact E.
Qed.

Lemma depth_value_one (self : HcalPhase1Reconstructor) (d : Z) :
  1 <= d <= 4 ->
  depth_value self d = 1%float ->
  Prim2SF (depth self) = Prim2SF (int_to_float d).
Proof.
  intros Hd. unfold depth_value.
  destruct (depth self =? int_to_float d)%float eqn:E.
  - intros _. rewrite FloatAxioms.eqb_spec in E.
    assert (d = 1 \/ d = 2 \/ d = 3 \/ d = 4) as [-> | [-> | [-> | ->]]] by lia;
      vm_compute (Prim2SF (int_to_float _)) in *;
      apply SFeqb_finite, E.
  - intros H. apply (f_equal Prim2SF) in H. vm_compute in H. discriminate H.
Qed.

Lemma depth_value_zero_or_one (self : HcalPhase1Reconstructor) (d : Z) :
  depth_value self d = 0%float \/ depth_value self d = 1%float.
Proof. unfold depth_value. destruct (_ =? _)%float; auto. Qed.

Lemma depth_cell (self : HcalPhase1Reconstructor)
    (calib : HcalCalibrations) (cs : CaloSamples) (frame : QIE11DataFrame)
    (rcfs : QIE11.RawChargeFromSample) (pos ninput d : Z)
    (buf : list float) :
  0 <= pos -> 1 <= ninput ->
  pos * ninput + 14 < Z.of_nat (length buf) ->
  pos + 1 < Z.of_nat (length buf) ->
  1 <= d <= 4 ->
  apply_writes (frame_writes self calib cs frame rcfs pos ninput) buf
    !! Z.to_nat (pos * ninput + d + 10) = Some (depth_value self d).
Proof.
  intros Hpos Hn Hrow Hmeta Hd.
  assert (Hu : pos <= pos * ninput) by nia.
  rewrite lookup_apply_writes;
    [|lia|apply frame_writes_in_bounds; first [assumption | lia]].
  unfold frame_writes. rewrite range_0_8, range_1_5.
  cbn [fmap list_fmap app last_write fst snd].
  decide_last_write;
    first [ assert (d = 1) as -> by lia
          | assert (d = 2) as -> by lia
          | assert (d = 3) as -> by lia
          | assert (d = 4) as -> by lia ];
    reflexivity.
Qed.

(** X3: after [process_frame] on an admitted, readable frame, each of the
    four depth cells of its row holds 0 or 1, and at most one of them
    holds 1. *)
Theorem depth_block_at_most_one_hot (MAXSAMPLES : Z)
    (self : HcalPhase1Reconstructor) (cond : HcalDbService)
    (ninput pos : Z) (frame : QIE11DataFrame) (s : state) :
  admitted (id frame) = true ->
  readable_frame cond frame ->
  0 <= pos -> 1 <= ninput ->
  pos * ninput + 14 < Z.of_nat (length (iInput s)) ->
  pos + 1 < Z.of_nat (length (iInput s)) ->
  Z.of_nat (length (iInput s)) <= 2 ^ 32 ->
  exists s' : state,
    process_frame MAXSAMPLES self cond ninput pos frame s = (s', Ok ()) /\
    (forall d : Z,
       1 <= d <= 4 ->
       iInput s' !! Z.to_nat (pos * ninput + d + 10) = Some 0%float \/
       iInput s' !! Z.to_nat (pos * ninput + d + 10) = Some 1%float) /\
    (forall d d' : Z,
       1 <= d <= 4 -> 1 <= d' <= 4 ->
       iInput s' !! Z.to_nat (pos * ninput + d + 10) = Some 1%float ->
       iInput s' !! Z.to_nat (pos * ninput + d' + 10) = Some 1%float ->
       d = d').
Proof.
  intros Hadm Hframe Hpos Hn Hrow Hmeta HL.
  destruct (process_frame_as_writes MAXSAMPLES self cond ninput pos frame s)
    as (rcfs & Hrcfs & Hrun); try assumption; [lia|].
  eexists. split; [exact Hrun|]. cbn [iInput]. split.
  - intros d Hd. rewrite depth_cell by assumption.
    destruct (depth_value_zero_or_one self d) as [-> | ->]; auto.
  - intros d d' Hd Hd'. rewrite !depth_cell by assumption.
    intros [= H1] [= H2].
    apply depth_value_one in H1; [|exact Hd].
    apply depth_value_one in H2; [|exact Hd'].
    rewrite H1 in H2. clear - Hd Hd' H2.
    assert (d = 1 \/ d = 2 \/ d = 3 \/ d = 4) as [-> | [-> | [-> | ->]]] by lia;
      assert (d' = 1 \/ d' = 2 \/ d' = 3 \/ d' = 4) as [-> | [-> | [-> | ->]]]
        by lia;
      first [reflexivity | vm_compute in H2; discriminate H2].
Qed.

(** ** The size of the buffer *)

Lemma keeps_size_ret {A} (a : A) : keeps_size (mret a : M A).
Proof. intros s s' o [= <- _]. reflexivity. Qed.

Lemma keeps_size_lift {A} (c : outcome A) : keeps_size (lift c).
Proof. intros s s' o [= <- _]. reflexivity. Qed.

Lemma keeps_size_write (i : Z) (v : float) : keeps_size (write i v).
Proof.
  intros s s' o. unfold write.
  destruct (_ && _); intros [= <- _]; [|reflexivity].
  cbn. apply length_insert.
Qed.

Lemma keeps_size_push_back (rh : HBHERecHit) : keeps_size (push_back rh).
Proof. intros s s' o [= <- _]. reflexivity. Qed.

Lemma keeps_size_bind {A B} (c : M A) (k : A -> M B) :
  keeps_size c -> (forall a, keeps_size (k a)) -> keeps_size (c ≫= k).
Proof.
  intros Hc Hk s s' o. rewrite M_bind_unfold.
  destruct (c s) as [s1 [a|e|u]] eqn:E; pose proof (Hc _ _ _ E) as H1.
  - intros H2. rewrite (Hk _ _ _ _ H2). exact H1.
  - intros [= <- _]. exact H1.
  - intros [= <- _]. exact H1.
Qed.

Lemma keeps_size_mfor {A} (body : A -> M unit) (l : list A) :
  (forall a, keeps_size (body a)) -> keeps_size (mfor body l).
Proof.
  intros H. induction l as [|a l IH]; cbn [mfor].
  - apply keeps_size_ret.
  - apply keeps_size_bind; [apply H | intros _; exact IH].
Qed.

Lemma keeps_size_process_frame (MAXSAMPLES : Z)
    (self : HcalPhase1Reconstructor) (cond : HcalDbService)
    (ninput pos : Z) (frame : QIE11DataFrame) :
  keeps_size (process_frame MAXSAMPLES self cond ninput pos frame).
Proof.
  unfold process_frame. cbv zeta.
  destruct (negb _); [apply keeps_size_ret|].
  apply keeps_size_bind; [apply keeps_size_lift|intros rcfs].
  apply keeps_size_bind.
  { apply keeps_size_mfor. intros ts. unfold charge_step.
    apply keeps_size_bind; [apply keeps_size_lift|intros sm].
    apply keeps_size_bind; [apply keeps_size_lift|intros c].
    apply keeps_size_write. }
  intros _. apply keeps_size_bind; [apply keeps_size_write|intros _].
  apply keeps_size_bind; [apply keeps_size_write|intros _].
  apply keeps_size_bind.
  { apply keeps_size_mfor. intros d. unfold depth_step.
    destruct (_ =? _)%float; apply keeps_size_write. }
  intros _. apply keeps_size_push_back.
Qed.

Lemma keeps_size_processData_from (MAXSAMPLES : Z)
    (self : HcalPhase1Reconstructor) (cond : HcalDbService) (ninput : Z)
    (coll : list QIE11DataFrame) :
  forall pos : Z,
    keeps_size (processData_from MAXSAMPLES self cond ninput pos coll).
Proof.
  induction coll as [|frame rest IH]; intros pos; cbn [processData_from].
  - apply keeps_size_ret.
  - apply keeps_size_bind;
      [apply keeps_size_process_frame | intros _; apply IH].
Qed.

(** X4: however an acquisition ends (returning, throwing, or at an access
    outside a container), the buffer it leaves has ninput * batchSize
    cells, the product taken modulo 2^32: no write of the batch loop
    resizes it, and nothing of the buffer of the previous cycle is kept. *)
Theorem acquire_buffer_size (MAXSAMPLES : Z) (self : HcalPhase1Reconstructor)
    (iEvent : Event) (iSetup : EventSetup) (s : state) :
  length (iInput (acquire MAXSAMPLES self iEvent iSetup s).1) =
  Z.to_nat ((client_ninput self * client_batchSize self) mod 2 ^ 32).
Proof.
  rewrite acquire_unfold.
  destruct (processData_from _ _ _ _ _ _ _) as [s' o] eqn:E.
  apply keeps_size_processData_from in E. cbn [fst]. rewrite E.
  cbn [iInput]. apply length_replicate.
Qed.

(** ** Collections of rejected frames *)

Lemma process_frame_rejected (MAXSAMPLES : Z)
    (self : HcalPhase1Reconstructor) (cond : HcalDbService)
    (ninput pos : Z) (frame : QIE11DataFrame) (s : state) :
  admitted (id frame) = false ->
  process_frame MAXSAMPLES self cond ninput pos frame s = (s, Ok ()).
Proof. intros H. unfold process_frame. cbv zeta. rewrite H. reflexivity. Qed.

Lemma processData_from_rejected (MAXSAMPLES : Z)
    (self : HcalPhase1Reconstructor) (cond : HcalDbService) (ninput : Z)
    (coll : list QIE11DataFrame) :
  Forall (fun frame => admitted (id frame) = false) coll ->
  forall (pos : Z) (s : state),
    processData_from MAXSAMPLES self cond ninput pos coll s = (s, Ok ()).
Proof.
  induction 1 as [|frame rest Hrej _ IH]; intros pos s;
    cbn [processData_from]; [reflexivity|].
  rewrite M_bind_unfold, process_frame_rejected by exact Hrej.
  apply IH.
Qed.

(** X5: when the filter rejects every frame of the event (an empty
    collection included), the acquisition returns with an empty [tmp] and
    a buffer of zeros, whatever the conditions hold for these frames and
    however few samples they have: no corrector is built for a rejected
    frame, so a rejected frame with a bad conversion factor raises
    nothing. *)
Theorem rejected_frames_leave_batch_empty (MAXSAMPLES : Z)
    (self : HcalPhase1Reconstructor) (iEvent : Event) (iSetup : EventSetup)
    (s : state) :
  Forall (fun frame => admitted (id frame) = false) (digis iEvent) ->
  acquire MAXSAMPLES self iEvent iSetup s =
  ({| tmp := [];
      iInput :=
        replicate
          (Z.to_nat ((client_ninput self * client_batchSize self) mod 2 ^ 32))
          0%float |},
   Ok ()).
Proof.
  intros Hall. rewrite acquire_unfold.
  apply processData_from_rejected, Hall.
Qed.

Lemma rejected_frames_leave_batch_empty_witness :
  acquire 10 (example_self 2) (mkEvent [forward_frame; forward_frame])
    (mkEventSetup (example_cond 30)) (mkState [recorded_hit barrel_frame] [])
  = ({| tmp := []; iInput := replicate 30 0%float |}, Ok ()).
Proof.
  apply (rejected_frames_leave_batch_empty 10 (example_self 2)
           (mkEvent [forward_frame; forward_frame])
           (mkEventSetup (example_cond 30))).
  repeat constructor.
Defined.

(** ** What an acquisition can throw *)













(** ** Past the capacity *)





(** ** The configured window *)

(** X8: the shift of the window is read as an unsigned parameter and kept
    in an int. For a parameter p below 2^31 - 3 the window of every
    channel starts at 3 + p, so never before the sample of interest; a
    window that starts earlier needs a parameter of 2^31 or more, which
    the member holds as p - 2^32, and then the window starts at
    max(3 + p - 2^32, 0). *)
Theorem unsigned_shift_window_start (cfg : ParameterSet) (unset : float)
    (ninput batchSize : Z) :
  0 <= par_sipmQTSShift cfg < 2 ^ 32 ->
  (par_sipmQTSShift cfg < 2 ^ 31 - 3 ->
   QIE11.firstTS 3
     (sipmQTSShift_ (make_reconstructor cfg unset ninput batchSize)) =
   3 + par_sipmQTSShift cfg) /\
  (2 ^ 31 <= par_sipmQTSShift cfg ->
   QIE11.firstTS 3
     (sipmQTSShift_ (make_reconstructor cfg unset ninput batchSize)) =
   Z.max (3 + par_sipmQTSShift cfg - 2 ^ 32) 0).
Proof.
  intros Hp. cbn [make_reconstructor sipmQTSShift_]. unfold QIE11.firstTS.
  split; intros H.
  - rewrite (wrap_int_small (par_sipmQTSShift cfg))
      by (unfold int_range; lia).
    rewrite wrap_int_small by (unfold int_range; lia). lia.
  - assert (Hw : wrap_int (par_sipmQTSShift cfg) =
                 par_sipmQTSShift cfg - 2 ^ 32).
    { unfold wrap_int.
      replace (par_sipmQTSShift cfg + 2 ^ 31)
        with (par_sipmQTSShift cfg - 2 ^ 31 + 1 * 2 ^ 32) by lia.
      rewrite Z.mod_add by lia. rewrite Z.mod_small; lia. }
    rewrite Hw, wrap_int_small by (unfold int_range; lia). lia.
Qed.

Lemma unsigned_shift_window_start_witness :
  QIE11.firstTS 3
    (sipmQTSShift_
       (make_reconstructor (mkParameterSet 2 3 0) 0 15 2)) = 3 + 2 /\
  QIE11.firstTS 3
    (sipmQTSShift_
       (make_reconstructor (mkParameterSet (2 ^ 32 - 2) 3 0) 0 15 2)) =
  Z.max (3 + (2 ^ 32 - 2) - 2 ^ 32) 0.
Proof.
  split.
  - apply (unsigned_shift_window_start (mkParameterSet 2 3 0) 0 15 2).
    + cbn. lia.
    + cbn. lia.
  - apply (unsigned_shift_window_start
             (mkParameterSet (2 ^ 32 - 2) 3 0) 0 15 2).
    + cbn. lia.
    + cbn. lia.
Defined.

(** X9: the window holds at most sipmQNTStoSum time slices when the
    addition firstTS + sipmQNTStoSum does not overflow; and when the
    parameter sipmQNTStoSum is 0, or is 2^31 or more (the int member is
    then negative), the window is empty whatever the shift and the frame:
    the loop sums nothing. *)
Theorem window_length_bounded (cfg : ParameterSet) (unset : float)
    (ninput batchSize soi maxTS : Z) :
  0 <= par_sipmQNTStoSum cfg < 2 ^ 32 ->
  (int_range
     (QIE11.firstTS soi
        (sipmQTSShift_ (make_reconstructor cfg unset ninput batchSize))
      + par_sipmQNTStoSum cfg) ->
   Z.of_nat
     (length
        (range
           (QIE11.firstTS soi
              (sipmQTSShift_ (make_reconstructor cfg unset ninput batchSize)))
           (QIE11.lastTS soi
              (sipmQTSShift_ (make_reconstructor cfg unset ninput batchSize))
              (sipmQNTStoSum_ (make_reconstructor cfg unset ninput batchSize))
              maxTS)))
   <= par_sipmQNTStoSum cfg) /\
  (par_sipmQNTStoSum cfg = 0 \/ 2 ^ 31 <= par_sipmQNTStoSum cfg ->
   range
     (QIE11.firstTS soi
        (sipmQTSShift_ (make_reconstructor cfg unset ninput batchSize)))
     (QIE11.lastTS soi
        (sipmQTSShift_ (make_reconstructor cfg unset ninput batchSize))
        (sipmQNTStoSum_ (make_reconstructor cfg unset ninput batchSize))
        maxTS) = []).
Proof.
  intros Hp. cbn [make_reconstructor sipmQTSShift_ sipmQNTStoSum_].
  set (shift := wrap_int (par_sipmQTSShift cfg)).
  assert (Hfirst : 0 <= QIE11.firstTS soi shift < 2 ^ 31).
  { unfold QIE11.firstTS, wrap_int.
    pose proof (Z.mod_pos_bound (soi + shift + 2 ^ 31) (2 ^ 32)). lia. }
  unfold QIE11.lastTS. set (first := QIE11.firstTS soi shift) in *.
  split.
  - intros Hrange. unfold int_range in Hrange.
    assert (par_sipmQNTStoSum cfg < 2 ^ 31) by lia.
    rewrite (wrap_int_small (par_sipmQNTStoSum cfg))
      by (unfold int_range; lia).
    rewrite wrap_int_small by exact Hrange.
    unfold range. rewrite length_fmap, length_seq. lia.
  - intros [H0 | Hbig]; apply range_empty.
    + rewrite H0. change (wrap_int 0) with 0.
      rewrite Z.add_0_r, wrap_int_small by (unfold int_range; lia). lia.
    + assert (Hw : wrap_int (par_sipmQNTStoSum cfg) =
                   par_sipmQNTStoSum cfg - 2 ^ 32).
      { unfold wrap_int.
        replace (par_sipmQNTStoSum cfg + 2 ^ 31)
          with (par_sipmQNTStoSum cfg - 2 ^ 31 + 1 * 2 ^ 32) by lia.
        rewrite Z.mod_add by lia. rewrite Z.mod_small; lia. }
      rewrite Hw, wrap_int_small by (unfold int_range; lia). lia.
Qed.

Lemma window_length_bounded_witness :
  Z.of_nat (length (range (QIE11.firstTS 3 (wrap_int 1))
                      (QIE11.lastTS 3 (wrap_int 1) (wrap_int 3) 8))) <= 3 /\
  range (QIE11.firstTS 3 (wrap_int 1))
        (QIE11.lastTS 3 (wrap_int 1) (wrap_int (2 ^ 31)) 8) = [].
Proof.
  split.
  - apply (window_length_bounded (mkParameterSet 1 3 0) 0 15 2 3 8).
    + cbn. lia.
    + vm_compute. split; [discriminate | reflexivity].
  - apply (window_length_bounded (mkParameterSet 1 (2 ^ 31) 0) 0 15 2 3 8).
    + cbn. lia.
    + right. cbn. lia.
Defined.

(** ** A charge at the pedestal *)

(** X10: a decoded charge equal to its pedestal comes back unchanged from
    the SiPM correction, whatever finite factor the corrector holds,
    provided the pedestal is finite and is not the negative zero. *)
Theorem charge_at_pedestal_unchanged (rcfs : QIE11.RawChargeFromSample)
    (p : float) :
  finite_float (QIE11.factor_ rcfs) = true ->
  finite_float p = true ->
  not_negative_zero p = true ->
  QIE11.getRawCharge rcfs p p = p.
Proof.
  unfold finite_float, not_negative_zero, QIE11.getRawCharge.
  intros Hf Hp Hz. apply Prim2SF_inj.
  rewrite add_spec, mul_spec, sub_spec.
  unfold SF64add, SF64mul, SF64sub.
  destruct (Prim2SF p) as [[]| | |sp mp ep]; try discriminate;
    unfold SFsub; rewrite ?Z.sub_diag; cbn [binary_normalize];
    destruct (Prim2SF (QIE11.factor_ rcfs)) as [sf| | |sf mf ef];
    try discriminate;
    repeat match goal with b : bool |- _ => destruct b end;
    reflexivity.
Qed.

Lemma charge_at_pedestal_unchanged_witness :
  QIE11.getRawCharge
    (QIE11.mkRawChargeFromSample (mkHcalSiPMParameter 2 1) 2
       (mkHcalSiPMnonlinearity (fun x => 1 + x)%float) 74.5)
    1 1 = 1%float.
Proof.
  apply (charge_at_pedestal_unchanged
           (QIE11.mkRawChargeFromSample (mkHcalSiPMParameter 2 1) 2
              (mkHcalSiPMnonlinearity (fun x => 1 + x)%float) 74.5) 1).
  - vm_compute. reflexivity.
  - vm_compute. reflexivity.
  - vm_compute. reflexivity.
Defined.

(** ** The rows past the collection *)

Lemma process_frame_untouched (MAXSAMPLES : Z)
    (self : HcalPhase1Reconstructor) (cond : HcalDbService)
    (ninput pos : Z) (frame : QIE11DataFrame) (s : state) (L j : Z) :
  readable_frame cond frame ->
  0 <= pos -> 15 <= ninput ->
  Z.of_nat (length (iInput s)) = L ->
  pos * ninput + 14 < L -> L <= 2 ^ 32 ->
  (pos + 1) * ninput <= j ->
  exists s' : state,
    process_frame MAXSAMPLES self cond ninput pos frame s = (s', Ok ()) /\
    Z.of_nat (length (iInput s')) = L /\
    iInput s' !! Z.to_nat j = iInput s !! Z.to_nat j.
Proof.
  intros Hframe Hpos Hn HlenL Hrow HL Hj.
  destruct (admitted (id frame)) eqn:Hadm.
  - destruct (process_frame_as_writes MAXSAMPLES self cond ninput pos
                frame s)
      as (rcfs & _ & Hrun); try first [assumption | lia | nia].
    eexists. split; [exact Hrun|]. cbn [iInput].
    split; [rewrite apply_writes_length; exact HlenL|].
    rewrite lookup_apply_writes;
      [|nia|apply frame_writes_in_bounds; first [assumption | lia | nia]].
    unfold frame_writes. rewrite range_0_8, range_1_5.
    cbn [fmap list_fmap app last_write fst snd].
    assert (pos * ninput + 15 <= j) by nia.
    assert (pos + 1 < j) by nia.
    decide_last_write. reflexivity.
  - exists s. rewrite process_frame_rejected by exact Hadm. auto.
Qed.

Lemma processData_from_untouched (MAXSAMPLES : Z)
    (self : HcalPhase1Reconstructor) (cond : HcalDbService)
    (ninput L j : Z) (coll : list QIE11DataFrame) :
  15 <= ninput -> L <= 2 ^ 32 ->
  Forall (readable_frame cond) coll ->
  forall (pos : Z) (s : state),
    0 <= pos ->
    Z.of_nat (length (iInput s)) = L ->
    (pos + Z.of_nat (length coll)) * ninput <= L ->
    (pos + Z.of_nat (length coll)) * ninput <= j ->
    exists s' : state,
      processData_from MAXSAMPLES self cond ninput pos coll s = (s', Ok ()) /\
      iInput s' !! Z.to_nat j = iInput s !! Z.to_nat j.
Proof.
  intros Hn HL Hall.
  induction Hall as [|frame rest Hframe _ IH]; intros pos s Hpos Hlen Hfit Hj;
    cbn [processData_from].
  - exists s. auto.
  - cbn [length] in Hfit, Hj.
    destruct (process_frame_untouched MAXSAMPLES self cond ninput pos frame
                s L j)
      as (s1 & E1 & Hlen1 & Hsame1); try first [assumption | nia].
    destruct (IH (pos + 1) s1) as (s' & E & Hsame);
      try first [assumption | lia | nia].
    exists s'. rewrite M_bind_unfold, E1. split; [exact E|].
    rewrite Hsame. exact Hsame1.
Qed.

(** X11: under the conditions of a batch within capacity (rows of at least
    fifteen features, a buffer size that fits 32 bits, at most batchSize
    frames, every admitted frame readable), the acquisition returns and
    every cell of the rows past the collection, from index
    ninput * (number of frames) on, still holds the 0 the buffer was
    created with. *)
Theorem rows_past_collection_stay_zero (MAXSAMPLES : Z)
    (self : HcalPhase1Reconstructor) (iEvent : Event) (iSetup : EventSetup)
    (s : state) :
  15 <= client_ninput self ->
  client_ninput self * client_batchSize self < 2 ^ 32 ->
  Z.of_nat (length (digis iEvent)) <= client_batchSize self ->
  Forall (readable_frame (conditions iSetup)) (digis iEvent) ->
  exists s' : state,
    acquire MAXSAMPLES self iEvent iSetup s = (s', Ok ()) /\
    forall j : Z,
      client_ninput self * Z.of_nat (length (digis iEvent)) <= j
        < client_ninput self * client_batchSize self ->
      iInput s' !! Z.to_nat j = Some 0%float.
Proof.
  intros Hn H32 Hfit Hall.
  set (L := client_ninput self * client_batchSize self) in *.
  set (s0 := {| tmp := []; iInput := replicate (Z.to_nat (wrap_unsigned L))
                                       0%float |}).
  set (n := Z.of_nat (length (digis iEvent))) in *.
  assert (Hn0 : 0 <= n) by (unfold n; lia).
  assert (HL : 0 <= L) by (unfold L; nia).
  assert (Hlen0 : Z.of_nat (length (iInput s0)) = L).
  { cbn [s0 iInput]. rewrite length_replicate, wrap_unsigned_small; lia. }
  assert (Hrows : (0 + n) * client_ninput self <= L) by (unfold L; nia).
  destruct (processData_from_untouched MAXSAMPLES self (conditions iSetup)
              (client_ninput self) L L (digis iEvent) Hn ltac:(lia) Hall
              0 s0 ltac:(lia) Hlen0 Hrows Hrows)
    as (s' & E & _).
  exists s'. rewrite acquire_unfold. fold L s0. split; [exact E|].
  intros j Hj.
  destruct (processData_from_untouched MAXSAMPLES self (conditions iSetup)
              (client_ninput self) L j (digis iEvent) Hn ltac:(lia) Hall
              0 s0 ltac:(lia) Hlen0 Hrows ltac:(fold n; lia))
    as (s'' & E' & Hsame).
  rewrite E in E'. injection E' as <-. rewrite Hsame.
  cbn [s0 iInput]. apply lookup_replicate_2.
  rewrite wrap_unsigned_small; lia.
Qed.

Lemma rows_past_collection_stay_zero_witness :
  exists s' : state,
    acquire 10 (example_self 3) two_admitted example_setup empty_state =
      (s', Ok ()) /\
    forall j : Z,
      15 * Z.of_nat 2 <= j < 15 * 3 ->
      iInput s' !! Z.to_nat j = Some 0%float.
Proof.
  apply (rows_past_collection_stay_zero 10 (example_self 3) two_admitted
           example_setup empty_state).
  - vm_compute. discriminate.
  - reflexivity.
  - vm_compute. discriminate.
  - repeat constructor; intros _; vm_compute; auto.
Defined.

Lemma frame_row_layout_witness :
  exists (s' : state) (rcfs : QIE11.RawChargeFromSample),
    process_frame 10 (example_self 2) (example_cond 0) 15 1 endcap_frame
      (mkState [] (replicate 30 0%float)) = (s', Ok ()) /\
    QIE11.factor_ rcfs = 74.5%float /\
    iInput s' !! 17%nat = Some 671.5%float /\
    iInput s' !! 1%nat = Some (-20)%float /\
    iInput s' !! 2%nat = Some 9%float /\
    iInput s' !! 28%nat = Some 0%float.
Proof.
  destruct (frame_row_layout 10 (example_self 2) (example_cond 0) 15 1
              endcap_frame (mkState [] (replicate 30 0%float)))
    as (s' & rcfs & Hrun & Hrcfs & Hcharge & Heta & Hphi & Hdepth).
  - reflexivity.
  - intros _; vm_compute; auto.
  - lia.
  - lia.
  - vm_compute. reflexivity.
  - vm_compute. reflexivity.
  - vm_compute. discriminate.
  - exists s', rcfs. split; [exact Hrun|].
    assert (H74 : QIE11.factor_ rcfs = 74.5%float).
    { vm_compute in Hrcfs. injection Hrcfs as <-. reflexivity. }
    split; [exact H74|].
    split.
    { pose proof (Hcharge 0 (mkSample 1 1) 10%float ltac:(lia) eq_refl
                    eq_refl) as H.
      unfold QIE11.getRawCharge in H. rewrite H74 in H.
      vm_compute in H. exact H. }
    split; [exact Heta|]. split; [exact Hphi|].
    exact (Hdepth 3 ltac:(lia)).
Defined.

Lemma frame_writes_nothing_else_witness :
  exists s' : state,
    process_frame 10 (example_self 2) (example_cond 0) 15 1 endcap_frame
      (mkState [] (replicate 30 0%float)) = (s', Ok ()) /\
    tmp s' = [recorded_hit endcap_frame] /\
    length (iInput s') = 30%nat /\
    iInput s' !! 25%nat = Some 0%float.
Proof.
  destruct (frame_writes_nothing_else 10 (example_self 2) (example_cond 0)
              15 1 endcap_frame (mkState [] (replicate 30 0%float)))
    as (s' & Hrun & Htmp & Hlen & Hsame).
  - reflexivity.
  - intros _; vm_compute; auto.
  - lia.
  - lia.
  - vm_compute. reflexivity.
  - vm_compute. reflexivity.
  - vm_compute. discriminate.
  - exists s'. split; [exact Hrun|]. split; [exact Htmp|].
    split; [exact Hlen|].
    exact (Hsame 25 ltac:(lia) ltac:(lia) ltac:(lia) ltac:(lia) ltac:(lia)).
Defined.

Lemma depth_block_at_most_one_hot_witness :
  exists s' : state,
    process_frame 10 (example_self_depth 3 2) (example_cond 0) 15 1
      endcap_frame (mkState [] (replicate 30 0%float)) = (s', Ok ()) /\
    (iInput s' !! 28%nat = Some 0%float \/
     iInput s' !! 28%nat = Some 1%float).
Proof.
  destruct (depth_block_at_most_one_hot 10 (example_self_depth 3 2)
              (example_cond 0) 15 1 endcap_frame
              (mkState [] (replicate 30 0%float)))
    as (s' & Hrun & Hbit & _).
  - reflexivity.
  - intros _; vm_compute; auto.
  - lia.
  - lia.
  - vm_compute. reflexivity.
  - vm_compute. reflexivity.
  - vm_compute. discriminate.
  - exists s'. split; [exact Hrun|]. exact (Hbit 3 ltac:(lia)).
Defined.
